(** * robopages-cli: the command-line front end and the registry it drives

    [src/robopages/cli.py] is embedded function by function ([to_json],
    [serve], [run]).  The module [robopages.models] it imports is not part
    of the sources at hand: its data model and the registry operations
    (load and filter, lookup, schema translation, call dispatch) are
    modelled from the specification, in [Module Core], and every such
    definition says so. *)

From Stdlib Require Import String Ascii List Bool Arith ZArith Lia.
From stdpp Require Import gmap strings list pretty.

Local Open Scope string_scope.
Local Open Scope list_scope.

(** ** Data model ([robopages.models], imported by the CLI)

    The classes are declared in [robopages/models.py], which is not among
    the sources; the records follow section 3 of the specification and the
    attributes the CLI reads ([function.parameters], [parameter.required],
    [function.description], [page.name], [page.categories],
    [page.functions], [book.pages]).

    Python dictionaries iterate in insertion order with unique keys: the
    ones that are iterated ([Function.parameters], [Page.functions],
    [Book.pages]) are association lists, the one that is only built and
    handed over ([FunctionCall.arguments]) is a [gmap]. *)
Module Models.

(** Modelled from the spec: a Parameter (section 3), keyed by its name in
    [Function.parameters]; the class is [Parameter] in the source. *)
Record Param := mkParam {
  param_type : string;
  param_description : string;
  required : bool;
  default : option string
}.

(** Modelled from the spec: a Function (section 3), keyed by its name in
    [Robopage.functions]. *)
Record Function := mkFunction {
  description : string;
  parameters : list (string * Param);
  template : string
}.

(** Modelled from the spec: a Page (section 3). *)
Record Robopage := mkRobopage {
  name : string;
  page_description : string;
  categories : list string;
  functions : list (string * Function)
}.

(** Modelled from the spec: the Book (section 3), Page key to Page. *)
Record Robook := mkRobook {
  pages : list (string * Robopage)
}.

(** Modelled from the spec: a FunctionCall (section 3); the CLI builds it as
    [FunctionCall(name=..., arguments=...)]. *)
Record FunctionCall := mkFunctionCall {
  call_name : string;
  arguments : gmap string string
}.

(** Modelled from the spec: a Robocall (section 3), built by the CLI as
    [Robocall(function=...)]. *)
Record Robocall := mkRobocall {
  function : FunctionCall;
  call_id : option string
}.

(** Modelled from the spec: the status of a Result (section 3), "ok /
    skipped / error-kind", with the per-call kinds of section 7. *)
Inductive ErrorKind := NotFound | Validation | ExecutionError | Timeout.

Inductive Status := StatusOk | StatusSkipped | StatusError (kind : ErrorKind).

(** Modelled from the spec: a Result (section 3). *)
Record Result := mkResult {
  content : string;
  status : Status
}.

(** Python truthiness of a [str]: only the empty string is falsy. *)
Definition truthy (value : string) : bool :=
  match value with
  | EmptyString => false
  | String _ _ => true
  end.

End Models.

Import Models.

(** ** The registry and the dispatcher

    [robopages.models] is not among the sources: everything in this module
    is modelled from the specification (sections 3 and 4). *)
Module Core.

(** *** Text helpers *)

(** Modelled from the spec: the case folding behind "case-insensitive"
    (section 4.2), on ASCII letters. *)
Definition lower_ascii (c : ascii) : ascii :=
  let n := nat_of_ascii c in
  if Nat.leb 65 n && Nat.leb n 90 then ascii_of_nat (n + 32) else c.

Fixpoint lower (s : string) : string :=
  match s with
  | EmptyString => EmptyString
  | String c s' => String (lower_ascii c) (lower s')
  end.

Definition upper_ascii (c : ascii) : ascii :=
  let n := nat_of_ascii c in
  if Nat.leb 97 n && Nat.leb n 122 then ascii_of_nat (n - 32) else c.

Fixpoint upper (s : string) : string :=
  match s with
  | EmptyString => EmptyString
  | String c s' => String (upper_ascii c) (upper s')
  end.

(** Modelled from the spec: the "substring match" of section 4.2. *)
Fixpoint contains (needle haystack : string) : bool :=
  String.prefix needle haystack
  || match haystack with
     | EmptyString => false
     | String _ rest => contains needle rest
     end.

(** *** Manifest Loader (section 4.1) *)

(** Modelled from the spec: a LoadError, "carrying the offending path and a
    message". *)
Record LoadError := mkLoadError {
  error_path : string;
  error_message : string
}.

(** Modelled from the spec: what a manifest document declares (section 6):
    a Page name, a description and its Functions. *)
Record Manifest := mkManifest {
  manifest_name : string;
  manifest_description : string;
  manifest_functions : list (string * Function)
}.

(** Modelled from the spec: a manifest file under the root location, with
    the segments of its relative path and the outcome of parsing it (the
    message of the defect when it is malformed). *)
Record SourceFile := mkSourceFile {
  source_path : string;
  segments : list string;
  document : string + Manifest
}.

(** Modelled from the spec: section 4.1, skip the malformed file, keep its
    error, go on with the rest. *)
Fixpoint loader (root : list SourceFile)
  : list (string * Robopage) * list LoadError :=
  match root with
  | [] => ([], [])
  | file :: root' =>
      let '(loaded, errors) := loader root' in
      match document file with
      | inl message => (loaded, mkLoadError (source_path file) message :: errors)
      | inr m =>
          ((source_path file,
            mkRobopage (manifest_name m) (manifest_description m)
                       (segments file) (manifest_functions m)) :: loaded,
           errors)
      end
  end.

(** *** Registry (section 4.2) *)

(** Modelled from the spec: "case-insensitive substring match against Page
    name or any category label". *)
Definition page_matches (filter : string) (page : Robopage) : bool :=
  contains (lower filter) (lower (name page))
  || existsb (fun label => contains (lower filter) (lower label)) (categories page).

(** Modelled from the spec: the filter is optional; without one every Page
    is kept. *)
Definition keeps (filter : option string) (page : Robopage) : bool :=
  match filter with
  | None => true
  | Some f => page_matches f page
  end.

(** Modelled from the spec: [functions()], "ordered by Page insertion order
    then Function insertion order within the Page". *)
Definition book_functions (book : Robook) : list (Robopage * string * Function) :=
  flat_map (fun kp : string * Robopage =>
              map (fun nf : string * Function => (snd kp, fst nf, snd nf))
                  (functions (snd kp)))
           (pages book).

(** The function names of the Book, in the order of [book_functions]. *)
Definition function_names (book : Robook) : list string :=
  map (fun e : Robopage * string * Function => snd (fst e)) (book_functions book).

(** Modelled from the spec: "the same function name appears twice
    post-filter"; the first such name, if any. *)
Fixpoint first_duplicate (names : list string) : option string :=
  match names with
  | [] => None
  | n :: names' =>
      if existsb (String.eqb n) names' then Some n else first_duplicate names'
  end.

(** Modelled from the spec: DuplicateFunctionError, "fatal at load time". *)
Inductive LoadFailure := DuplicateFunctionError (function_name : string).

(** Modelled from the spec: [load(root, filter)], section 4.2: run the
    Loader, filter, index, reject a function name that appears twice. *)
Definition load (root : list SourceFile) (filter : option string)
  : LoadFailure + (Robook * list LoadError) :=
  let '(loaded, errors) := loader root in
  let book := mkRobook (List.filter (fun kp : string * Robopage => keeps filter (snd kp)) loaded) in
  match first_duplicate (function_names book) with
  | Some n => inl (DuplicateFunctionError n)
  | None => inr (book, errors)
  end.

(** Modelled from the spec: [find(name)], "exact-match lookup; no fuzzy
    matching". *)
Definition find (book : Robook) (function_name : string) : option Function :=
  match List.find (fun e : Robopage * string * Function =>
                     String.eqb (snd (fst e)) function_name)
                  (book_functions book) with
  | Some e => Some (snd e)
  | None => None
  end.

(** *** Schema Translator (section 4.3) *)

(** Modelled from the spec: the JSON values that tool descriptions are
    made of. *)
#[warnings="-register-all"]
Inductive JSON :=
| JString (s : string)
| JArray (items : list JSON)
| JObject (members : list (string * JSON)).

Fixpoint member (key : string) (members : list (string * JSON)) : option JSON :=
  match members with
  | [] => None
  | (k, v) :: members' => if String.eqb k key then Some v else member key members'
  end.

(** [json_get ["a"; "b"] j] is [j.a.b]. *)
Fixpoint json_get (path : list string) (j : JSON) : option JSON :=
  match path with
  | [] => Some j
  | key :: path' =>
      match j with
      | JObject members =>
          match member key members with
          | Some j' => json_get path' j'
          | None => None
          end
      | _ => None
      end
  end.

(** Modelled from the spec: "an OpenAI-style function-calling dialect ...
    and a generic dialect". *)
Inductive Dialect := OpenAI | Generic.

(** Modelled from the spec: "each Parameter's declared type maps to the
    dialect's primitive type representation; an unrecognized declared type
    degrades permissively to the dialect's string type".  The declared
    types the spec names are string, integer and boolean. *)
Definition primitive_type (declared : string) : string :=
  if String.eqb declared "integer" then "integer"
  else if String.eqb declared "boolean" then "boolean"
  else "string".

(** Modelled from the spec: "the [required] list is exactly the set of
    Parameters with [required = true]", in Function-definition order. *)
Definition required_names (f : Function) : list string :=
  map fst (List.filter (fun np : string * Param => required (snd np)) (parameters f)).

(** Modelled from the spec: one entry of [properties]. *)
Definition openai_property (np : string * Param) : string * JSON :=
  (fst np,
   JObject [("type", JString (primitive_type (param_type (snd np))));
            ("description", JString (param_description (snd np)))]).

(** Modelled from the spec: the OpenAI-style entry
    [{type:"function", function:{name, description,
      parameters:{type:"object", properties:{...}, required:[...]}}}]. *)
Definition openai_tool (function_name : string) (f : Function) : JSON :=
  JObject
    [("type", JString "function");
     ("function",
      JObject
        [("name", JString function_name);
         ("description", JString (description f));
         ("parameters",
          JObject
            [("type", JString "object");
             ("properties", JObject (map openai_property (parameters f)));
             ("required", JArray (map JString (required_names f)))])])].

(** Modelled from the spec: the generic dialect; the fields are those the
    client in [src/examples/rigging_example.py] reads ([name],
    [description], [functions], [parameters], [type]). *)
Definition generic_parameter (np : string * Param) : JSON :=
  JObject [("name", JString (fst np));
           ("type", JString (primitive_type (param_type (snd np))));
           ("description", JString (param_description (snd np)))].

Definition generic_function (nf : string * Function) : JSON :=
  JObject [("name", JString (fst nf));
           ("description", JString (description (snd nf)));
           ("parameters", JArray (map generic_parameter (parameters (snd nf))))].

(** Modelled from the spec: the generic dialect, "grouping functions under
    their owning Page/category". *)
Definition generic_page (page : Robopage) : JSON :=
  JObject [("name", JString (name page));
           ("description", JString (page_description page));
           ("categories", JArray (map JString (categories page)));
           ("functions", JArray (map generic_function (functions page)))].

(** Modelled from the spec: [toSchema(dialect)]. *)
Definition toSchema (dialect : Dialect) (book : Robook) : list JSON :=
  match dialect with
  | OpenAI =>
      map (fun e : Robopage * string * Function => openai_tool (snd (fst e)) (snd e))
          (book_functions book)
  | Generic => map (fun kp : string * Robopage => generic_page (snd kp)) (pages book)
  end.

(** *** Call Dispatcher (section 4.4) *)

(** Modelled from the spec: step 2, the required Parameters that the call's
    arguments lack. *)
Definition missing_required (f : Function) (args : gmap string string) : list string :=
  map fst
      (List.filter
         (fun np : string * Param =>
            required (snd np) && bool_decide (args !! fst np = None))
         (parameters f)).

(** Modelled from the spec: the value a declared Parameter binds to, the
    supplied argument, else "their declared default or an empty value". *)
Definition bound_value (args : gmap string string) (np : string * Param) : string :=
  match args !! fst np with
  | Some v => v
  | None =>
      match default (snd np) with
      | Some d => d
      | None => ""
      end
  end.

(** Modelled from the spec: the [${name}]-style placeholder of section 6. *)
Definition placeholder (param_name : string) : string :=
  "${" +:+ param_name +:+ "}".

(** Modelled from the spec: the declared Parameter whose placeholder starts
    the text, with the length of that placeholder and the value to put. *)
Fixpoint placeholder_at (params : list (string * Param)) (args : gmap string string)
  (text : string) : option (nat * string) :=
  match params with
  | [] => None
  | np :: params' =>
      if String.prefix (placeholder (fst np)) text
      then Some (String.length (placeholder (fst np)), bound_value args np)
      else placeholder_at params' args text
  end.

(** Modelled from the spec: step 3, one pass over the template; [skip]
    counts the characters of a placeholder still to pass over. *)
Fixpoint bind_from (params : list (string * Param)) (args : gmap string string)
  (skip : nat) (text : string) : string :=
  match text with
  | EmptyString => EmptyString
  | String c text' =>
      match skip with
      | S k => bind_from params args k text'
      | O =>
          match placeholder_at params args text with
          | Some (len, value) => value +:+ bind_from params args (len - 1) text'
          | None => String c (bind_from params args 0 text')
          end
      end
  end.

Definition bind_template (f : Function) (args : gmap string string) : string :=
  bind_from (parameters f) args 0 (template f).

(** Modelled from the spec: step 5, how running the bound command ends. *)
Inductive ExecOutcome :=
| Exited (code : Z) (output : string)
| FailedToStart (message : string)
| TimedOut (output : string).

(** Modelled from the spec: the answer of the Interactive Gate (section
    4.5). *)
Inductive Decision := Confirmed | Declined.

(** Modelled from the spec: "Process exit code is recorded but does not by
    itself make the Result an error ... only a failure to start the
    process, or a timeout, is classified as ExecutionError/Timeout". *)
Definition result_of (outcome : ExecOutcome) : Result :=
  match outcome with
  | Exited _ output => mkResult output StatusOk
  | FailedToStart message => mkResult message (StatusError ExecutionError)
  | TimedOut output => mkResult output (StatusError Timeout)
  end.

(** Modelled from the spec: the Results of the steps that end a call early;
    the spec fixes their status, the wording of [content] is this model's. *)
Definition not_found_result (function_name : string) : Result :=
  mkResult ("function " +:+ function_name +:+ " not found") (StatusError NotFound).

Definition validation_result (missing : list string) : Result :=
  mkResult ("missing required parameters: " +:+ String.concat ", " missing)
           (StatusError Validation).

Definition skipped_result : Result := mkResult "" StatusSkipped.

Section Dispatcher.

(** The outside of the Dispatcher: the state [W] of the machine and of
    the operator, the Interactive Gate (section 4.5) and the execution
    of a bound command; both are capabilities a test can substitute. *)
Context {W : Type}.
Variable confirm : string -> string -> W -> Decision * W.
Variable execute : string -> W -> ExecOutcome * W.

(** Modelled from the spec: steps 1 to 6 for one call.  [spawned] lists
    the commands for which an external process was started. *)
Definition dispatch (book : Robook) (interactive : bool) (call : Robocall)
  (w : W) (spawned : list string) : Result * W * list string :=
  let name := call_name (function call) in
  let args := arguments (function call) in
  match find book name with
  | None => (not_found_result name, w, spawned)
  | Some f =>
      match missing_required f args with
      | (_ :: _) as missing => (validation_result missing, w, spawned)
      | [] =>
          let command := bind_template f args in
          let '(decision, w1) :=
            if interactive then confirm command (description f) w
            else (Confirmed, w) in
          match decision with
          | Declined => (skipped_result, w1, spawned)
          | Confirmed =>
              let '(outcome, w2) := execute command w1 in
              (result_of outcome, w2, spawned ++ [command])
          end
      end
  end.

(** Modelled from the spec: [process(calls, interactive)], the calls one
    after the other in input order. *)
Fixpoint process (book : Robook) (calls : list Robocall) (interactive : bool)
  (w : W) (spawned : list string) : list Result * W * list string :=
  match calls with
  | [] => ([], w, spawned)
  | call :: calls' =>
      let '(result, w1, spawned1) := dispatch book interactive call w spawned in
      let '(results, w2, spawned2) := process book calls' interactive w1 spawned1 in
      (result :: results, w2, spawned2)
  end.

End Dispatcher.

End Core.

(** ** The command-line front end, [src/robopages/cli.py] *)
Module Cli.

Definition Path := string.

(** An [Exception] instance, identified with the text [str(e)] that the
    handlers print. *)
Definition Exception := string.

(** [robopages.api.app]: the ASGI application object, created when the
    module [robopages.api] is imported. *)
Inductive App := ApiApp.

(** What a command does to the outside, in order. *)
Inductive Event :=
| EvFromPath (path : Path) (filter : option string)
| EvFindFunction (function_name : string)
| EvPrint (text : string)
| EvPrompt (prompt : string)
| EvProcess (calls : list Robocall) (interactive : bool)
| EvWriteText (output : Path) (data : string)
| EvUvicornRun (app : App) (host : string) (port : Z).

(** The state a command runs in: the lines still to be read from standard
    input, the module attribute [robopages.api.book], and the events so
    far. *)
Record World := mkWorld {
  stdin : list string;
  api_book : option Robook;
  log : list Event
}.

Definition emit (ev : Event) (w : World) : World :=
  {| stdin := stdin w; api_book := api_book w; log := log w ++ [ev] |}.

Definition set_stdin (lines : list string) (w : World) : World :=
  {| stdin := lines; api_book := api_book w; log := log w |}.

Definition set_api_book (book : Robook) (w : World) : World :=
  {| stdin := stdin w; api_book := Some book; log := log w |}.

(** Commands: a state transformer that ends in a value or in a raised
    [Exception]; the state reached is kept in both cases, as what was
    printed before a [raise] stays printed. *)
Definition M (A : Type) : Type := World -> (Exception + A) * World.

#[export] Instance M_ret : MRet M := fun A a w => (inr a, w).

#[export] Instance M_bind : MBind M := fun A B k m w =>
  match m w with
  | (inl e, w') => (inl e, w')
  | (inr a, w') => k a w'
  end.

Definition raise {A : Type} (e : Exception) : M A := fun w => (inl e, w).

(** [try: body except Exception as e: handler e] *)
Definition try_except {A : Type} (body : M A) (handler : Exception -> M A) : M A :=
  fun w =>
    match body w with
    | (inl e, w') => handler e w'
    | (inr a, w') => (inr a, w')
    end.

Definition lift {A : Type} (r : Exception + A) : M A := fun w => (r, w).

Definition tell (ev : Event) : M unit := fun w => (inr tt, emit ev w).

(** [rich.print] of a text that rich cannot reject: the empty line, a
    literal whose markup is well formed, the rendering of an object that is
    not a string. *)
Definition print (text : string) : M unit := tell (EvPrint text).

(** [rich.print(text)] for a text put together at run time.  rich reads the
    text as console markup before it prints anything, and raises
    [MarkupError] when a closing tag in it matches no open tag;
    [markup_error text] is that error, if there is one.  [EvPrint text]
    records that [text] was handed over and rendered. *)
Definition rich_print (markup_error : string -> option Exception) (text : string)
  : M unit :=
  match markup_error text with
  | Some e => raise e
  | None => print text
  end.

(** The text of the [EOFError] that [input()], under [Prompt.ask], raises
    when standard input is exhausted. *)
Definition EOFError : Exception := "EOF when reading a line".

Section Commands.

(** The parts of [robopages.models] and of the standard library that the
    commands call, over a fixed file system. *)
Variable from_path : Path -> option string -> Exception + Robook.
Variable find_function : Robook -> string -> Exception + option Function.
Variable process :
  Robook -> list Robocall -> bool -> list string ->
  (Exception + list Result) * list string.
Variable JSON : Type.
Variable to_openai : Robook -> Exception + JSON.
Variable json_dumps : JSON -> nat -> string.
(** [repr results] is what rich shows for the list that [process] returns;
    rich pretty-prints an object that is not a string without reading it as
    markup. *)
Variable repr : list Result -> string.

(** The console and the file system: the [MarkupError] that rich raises on a
    text, if any; [str.strip], which [Prompt.ask] applies to the line it
    read; the error of [output.write_text(data)], if any. *)
Variable markup_error : string -> option Exception.
Variable strip : string -> string.
Variable write_text : Path -> string -> option Exception.

Definition Robook_from_path (path : Path) (filter : option string) : M Robook :=
  _ ← tell (EvFromPath path filter); lift (from_path path filter).

Definition book_find_function (book : Robook) (function_name : string)
  : M (option Function) :=
  _ ← tell (EvFindFunction function_name); lift (find_function book function_name).

Definition book_process (book : Robook) (calls : list Robocall) (interactive : bool)
  : M (list Result) :=
  fun w =>
    let w1 := emit (EvProcess calls interactive) w in
    let '(r, rest) := process book calls interactive (stdin w1) in
    (r, set_stdin rest w1).

(** *** [to_json] (cli.py, lines 148-186) *)
Definition to_json (path : Path) (output : option Path) (filter : option string)
  : M unit :=
  book ← Robook_from_path path filter;
  schema ← lift (to_openai book);
  let data := json_dumps schema 2 in
  match output with
  | Some output =>
      _ ← tell (EvWriteText output data);
      _ ← (match write_text output data with
           | Some e => raise e
           | None => mret tt
           end);
      rich_print markup_error (":file_folder: saved to " +:+ output)
  | None => rich_print markup_error data
  end.

(** *** [serve] (cli.py, lines 190-236) *)
Definition external_address_warning : string :=
  "[bold red]:warning: external address specified, this is an unsafe configuration as no authentication is provided.[/]".

Definition is_local (address : string) : bool :=
  String.eqb address "127.0.0.1" || String.eqb address "localhost".

Definition serve (path : Path) (filter : option string) (address : string)
  (port : Z) : M unit :=
  book ← Robook_from_path path filter;
  _ ← (fun w => (inr tt, set_api_book book w));
  _ ← (if negb (is_local address) then print external_address_warning
       else mret tt);
  tell (EvUvicornRun ApiApp address port).

(** *** [run] (cli.py, lines 240-285) *)
Definition prompt_text (param_name : string) : string :=
  "Enter value for [yellow]${" +:+ param_name +:+ "}[/]".

(** The [while True] loop of lines 274-280 for one parameter.  Every
    round is one [Prompt.ask]: it renders the prompt, which rich may reject,
    takes one line of standard input or raises at its end, and returns the
    line stripped.  The recursion is on the lines left. *)
Fixpoint ask_value (param_name : string) (parameter : Param)
  (arguments : gmap string string) (lines : list string) (events : list Event)
  : (Exception + gmap string string) * list string * list Event :=
  match markup_error (prompt_text param_name) with
  | Some e => (inl e, lines, events)
  | None =>
      let events := events ++ [EvPrompt (prompt_text param_name)] in
      match lines with
      | [] => (inl EOFError, [], events)
      | line :: rest =>
          let value := strip line in
          if truthy value then (inr (<[param_name := value]> arguments), rest, events)
          else if negb (required parameter) then (inr arguments, rest, events)
          else ask_value param_name parameter arguments rest events
      end
  end.

(** The [for] loop of lines 273-280 over [function.parameters.items()]. *)
Fixpoint ask_values (params : list (string * Param))
  (arguments : gmap string string) (lines : list string) (events : list Event)
  : (Exception + gmap string string) * list string * list Event :=
  match params with
  | [] => (inr arguments, lines, events)
  | (param_name, parameter) :: params' =>
      match ask_value param_name parameter arguments lines events with
      | (inl e, rest, events') => (inl e, rest, events')
      | (inr arguments', rest, events') => ask_values params' arguments' rest events'
      end
  end.

Definition collect_arguments (params : list (string * Param))
  : M (gmap string string) :=
  fun w =>
    let '(r, rest, events) := ask_values params ∅ (stdin w) (log w) in
    (r, {| stdin := rest; api_book := api_book w; log := events |}).

Definition not_found (function_name : string) : Exception :=
  "function " +:+ function_name +:+ " not found".

Definition run_body (path : Path) (auto : bool) (function_name : string) : M unit :=
  book ← Robook_from_path path None;
  function ← book_find_function book function_name;
  match function with
  | None => raise (not_found function_name)
  | Some function =>
      _ ← (match parameters function with
           | [] => mret tt
           | _ :: _ => print ""
           end);
      arguments ← collect_arguments (parameters function);
      let call := mkRobocall (mkFunctionCall function_name arguments) None in
      results ← book_process book [call] (negb auto);
      print (repr results)
  end.

Definition run (path : Path) (auto : bool) (function_name : string) : M unit :=
  try_except (run_body path auto function_name)
             (fun e => rich_print markup_error (":cross_mark: " +:+ e)).

End Commands.

End Cli.

(** ** A small registry and test doubles, for concrete runs *)
Module Examples.

Import Core Cli.

Definition target : Param := mkParam "string" "host to reach" true None.

Definition ports : Param := mkParam "string" "ports to scan" false (Some "1-1024").

(** The Function of scenarios A and B (section 8). *)
Definition ping : Function :=
  mkFunction "Ping a host once." [("target", target)] "ping -c 1 ${target}".

Definition scan : Function :=
  mkFunction "Scan the ports of a host." [("target", target); ("ports", ports)]
             "nmap -p ${ports} ${target}".

Definition network : Manifest :=
  mkManifest "Network" "Network tools." [("ping", ping); ("scan", scan)].

Definition root : list SourceFile :=
  [mkSourceFile "net/network.yml" ["Net"] (inr network);
   mkSourceFile "broken.yml" [] (inl "not a mapping")].

Definition book : Robook := mkRobook (fst (loader root)).

(** An operator who reads one line and confirms on "y". *)
Definition operator (command description : string) (answers : list string)
  : Decision * list string :=
  match answers with
  | "y" :: rest => (Confirmed, rest)
  | _ :: rest => (Declined, rest)
  | [] => (Declined, [])
  end.

(** A process runner that starts nothing and echoes the command. *)
Definition runner (command : string) (answers : list string)
  : ExecOutcome * list string :=
  (Exited 0 ("ran: " +:+ command), answers).

Definition call_ping : Robocall :=
  mkRobocall (mkFunctionCall "ping" {[ "target" := "127.0.0.1" ]}) None.

Definition call_ping_bare : Robocall := mkRobocall (mkFunctionCall "ping" ∅) None.

Definition call_nonexistent : Robocall :=
  mkRobocall (mkFunctionCall "nonexistent" ∅) None.

Definition from_path (path : Path) (filter : option string) : Exception + Robook :=
  match load root filter with
  | inr (book, _) => inr book
  | inl (DuplicateFunctionError n) => inl ("duplicate function " +:+ n)
  end.

Definition find_function (book : Robook) (function_name : string)
  : Exception + option Function :=
  inr (find book function_name).

Definition process_impl (book : Robook) (calls : list Robocall) (interactive : bool)
  (lines : list string) : (Exception + list Result) * list string :=
  let out := process operator runner book calls interactive lines [] in
  (inr (fst (fst out)), snd (fst out)).

Definition to_openai (book : Robook) : Exception + list JSON :=
  inr (toSchema OpenAI book).

(** A stand-in for [json.dumps], exact on the empty schema. *)
Definition dumps (schema : list JSON) (indent : nat) : string :=
  match schema with
  | [] => "[]"
  | _ :: _ => "[...]"
  end.

Definition repr (results : list Result) : string :=
  String.concat "; " (map content results).

Definition console (lines : list string) : World := mkWorld lines None [].

End Examples.

(** ** The other commands of [src/robopages/cli.py]: [install], [create], [view] *)
Module Shell.

Import Core.

(** The archive that [zipfile.ZipFile] opens: the file [repo] itself, or the
    temporary file holding what was downloaded from [url]. *)
Inductive Archive :=
| LocalArchive (path : string)
| Downloaded (url : string) (body : string).

(** A row of the table of [view]: page, function, description. *)
Definition Row : Type := string * string * string.

(** What these commands do to the outside, in order. *)
Inductive Effect :=
| FxFromPath (path : Cli.Path) (filter : option string)
| FxPrint (text : string)
| FxPrintTable (columns : list string) (rows : list Row)
| FxPrompt (prompt : string) (choices : list string) (default : string)
| FxGet (url : string)
| FxExtract (archive : Archive) (destination : Cli.Path)
| FxCreateExample (path : Cli.Path).

(** A command that reads nothing back from its own effects: the effects in
    order, and the value or the raised [Exception] it ends with. *)
Definition Out (A : Type) : Type := (Cli.Exception + A) * list Effect.

#[export] Instance Out_ret : MRet Out := fun A a => (inr a, []).

#[export] Instance Out_bind : MBind Out := fun A B k m =>
  match m with
  | (inl e, effects) => (inl e, effects)
  | (inr a, effects) => let '(r, effects') := k a in (r, effects ++ effects')
  end.

(** One call to the outside, with the outcome the outside gives it. *)
Definition perform {A : Type} (effect : Effect) (outcome : Cli.Exception + A) : Out A :=
  (outcome, [effect]).

(** [rich.print] of a text that rich cannot reject. *)
Definition print (text : string) : Out unit := perform (FxPrint text) (inr tt).

(** [rich.print(text)] for a text put together at run time: rich raises
    [MarkupError], given by [markup_error text], before it prints anything
    when a closing tag in the text matches no open tag. *)
Definition rich_print (markup_error : string -> option Cli.Exception) (text : string)
  : Out unit :=
  match markup_error text with
  | Some e => (inl e, [])
  | None => print text
  end.

(** [try: body except Exception as e: handler e] *)
Definition try_except {A : Type} (body : Out A) (handler : Cli.Exception -> Out A)
  : Out A :=
  match body with
  | (inl e, effects) => let '(r, effects') := handler e in (r, effects ++ effects')
  | (inr a, effects) => (inr a, effects)
  end.

Section Install.

(** [path.exists()] and [os.path.exists(repo)], on the file system as it is
    when the command starts; [httpx.stream("GET", url)] followed by
    [raise_for_status()] and the reading of the body; [ZipFile(...).extractall];
    the [MarkupError] that rich raises on a text, if any. *)
Variable file_exists : string -> bool.
Variable http_get : string -> Cli.Exception + string.
Variable extractall : Archive -> Cli.Path -> Cli.Exception + unit.
Variable markup_error : string -> option Cli.Exception.

(** Lines 55-58: the shorthand [user/name] and the URL of the archive. *)
Definition archive_url (repo : string) : string :=
  let repo := if contains "://" repo then repo else "https://github.com/" +:+ repo in
  repo +:+ "/archive/refs/heads/main.zip".

Definition downloading (repo : string) : string :=
  ":coffee: downloading " +:+ archive_url repo +:+ " ...".

Definition extracting (path : Cli.Path) : string :=
  ":coffee: extracting to " +:+ path +:+ " ...".

(** *** [install] (cli.py, lines 24-75) *)
Definition install_body (repo : string) (path : Cli.Path) : Out unit :=
  if file_exists path
  then rich_print markup_error (":cross_mark: path " +:+ path +:+ " already exists.")
  else if contains ".zip" repo && file_exists repo
  then
    _ ← rich_print markup_error (extracting path);
    perform (FxExtract (LocalArchive repo) path) (extractall (LocalArchive repo) path)
  else
    let url := archive_url repo in
    _ ← rich_print markup_error (downloading repo);
    body ← perform (FxGet url) (http_get url);
    _ ← rich_print markup_error (extracting path);
    perform (FxExtract (Downloaded url body) path) (extractall (Downloaded url body) path).

Definition install (repo : string) (path : Cli.Path) : Out unit :=
  try_except (install_body repo path)
             (fun e => rich_print markup_error (":cross_mark: " +:+ e)).

End Install.

Section Create.

(** [path.exists()], [path.name], [Prompt.ask] with its choices and default,
    and [Robopage.create_example_in_path]. *)
Variable file_exists : string -> bool.
Variable path_name : Cli.Path -> string.
Variable Prompt_ask : string -> list string -> string -> Cli.Exception + string.
Variable create_example_in_path : Cli.Path -> Cli.Exception + unit.

Definition overwrite_prompt (path : Cli.Path) : string :=
  ":axe: overwrite " +:+ path_name path +:+ "?".

(** *** [create] (cli.py, lines 79-96) *)
Definition create (path : Cli.Path) : Out unit :=
  if file_exists path
  then
    answer ← perform (FxPrompt (overwrite_prompt path) ["y"; "n"] "n")
                     (Prompt_ask (overwrite_prompt path) ["y"; "n"] "n");
    if String.eqb answer "n" then mret tt
    else perform (FxCreateExample path) (create_example_in_path path)
  else perform (FxCreateExample path) (create_example_in_path path).

End Create.

Section View.

(** [Robook.from_path] and [Function.to_string]. *)
Variable from_path : Cli.Path -> option string -> Cli.Exception + Robook.
Variable to_string : Function -> string -> string.

Definition page_label (page : Robopage) : string :=
  "[dim]" +:+ String.concat " > " (categories page) +:+ "[/] > " +:+ name page.

(** The inner loop of lines 129-140, with its flag [first_page]. *)
Fixpoint add_function_rows (page : Robopage) (items : list (string * Function))
  (first_page : bool) (table : list Row) : bool * list Row :=
  match items with
  | [] => (first_page, table)
  | (function_name, function) :: items' =>
      if first_page
      then add_function_rows page items' false
             (table ++ [(page_label page, to_string function function_name,
                         description function)])
      else add_function_rows page items' first_page
             (table ++ [("", to_string function function_name, description function)])
  end.

(** The outer loop of lines 127-140 over [book.pages.values()]. *)
Fixpoint add_page_rows (pages : list (string * Robopage)) (table : list Row)
  : list Row :=
  match pages with
  | [] => table
  | (_, page) :: pages' =>
      add_page_rows pages' (snd (add_function_rows page (functions page) true table))
  end.

(** *** [view] (cli.py, lines 100-142) *)
Definition view (path : Cli.Path) (filter : option string) : Out unit :=
  book ← perform (FxFromPath path filter) (from_path path filter);
  _ ← print "";
  perform (FxPrintTable ["page"; "function"; "description"]
                        (add_page_rows (pages book) []))
          (inr tt).

End View.

End Shell.

(** ** The client of [src/examples/rigging_example.py] *)
Module Rigging.

Import Core.

(** Lines 9-17: the target read at start-up.  [line] is what [input()] gives,
    a line or a raised exception; [strip] is [str.strip]. *)
Definition read_target (strip : string -> string) (line : Cli.Exception + string)
  : string :=
  match line with
  | inr text => if truthy (strip text) then strip text else "127.0.0.1"
  | inl _ => "127.0.0.1"
  end.

(** The tool descriptions that the server returns for [flavor=rigging], with
    the keys the client reads. *)
Record ToolParameter := mkToolParameter {
  parameter_name : string;
  parameter_type : string;
  parameter_description : string
}.

Record ToolFunction := mkToolFunction {
  fn_name : string;
  fn_description : string;
  fn_parameters : list ToolParameter
}.

Record Tool := mkTool {
  tool_name : string;
  tool_description : string;
  tool_functions : list ToolFunction
}.

(** An instance of [Wrapper]: the attributes that [__init__] sets on [self]. *)
Record Wrapper := mkWrapper {
  self_tool : Tool;
  self_name : string;
  self_description : string
}.

(** The state shared by all instances.  Every call of [__init__] has its own
    variable [function], a cell that the loop assigns and that the lambdas
    created in that call read when they are called; [cells] holds the
    current value of each, [None] before the first assignment.
    [Wrapper_attrs] holds what [setattr(Wrapper, ...)] has put on the class:
    for a name, the lambda set last, identified by the cell it captured. *)
Record Interp := mkInterp {
  cells : list (option ToolFunction);
  Wrapper_attrs : gmap string nat
}.

(** The loop of lines 33-40, for the call of [__init__] that owns [cell]. *)
Fixpoint init_loop (cell : nat) (items : list ToolFunction) (st : Interp) : Interp :=
  match items with
  | [] => st
  | function :: items' =>
      init_loop cell items'
        {| cells := <[cell := Some function]> (cells st);
           Wrapper_attrs := <[fn_name function := cell]> (Wrapper_attrs st) |}
  end.

(** The names that Python itself looks up on a class ([__init__],
    [__getattribute__], ...). *)
Definition special (method : string) : bool := String.prefix "__" method.

(** No such name has been put on the class: creating an instance and
    calling a method go the ordinary way. *)
Definition ordinary (st : Interp) : bool :=
  bool_decide (map_Forall (fun (method : string) (_ : nat) => special method = false)
                          (Wrapper_attrs st)).

(** [Wrapper(tool)] (lines 27-40).  Once [setattr] has put a special name on
    the class, the class no longer builds its instances this way (with
    [__init__] replaced, [Wrapper(tool)] calls the lambda instead and
    raises): such a state is outside this model, and the result is [None]. *)
Definition Wrapper_init (tool : Tool) (st : Interp) : option (Wrapper * Interp) :=
  if ordinary st
  then
    let cell := length (cells st) in
    Some (mkWrapper tool (tool_name tool) (tool_description tool),
          init_loop cell (tool_functions tool)
                    {| cells := cells st ++ [None];
                       Wrapper_attrs := Wrapper_attrs st |})
  else None.

Inductive Request :=
| RqPrint (text : string)
| RqPost (url : string) (body : JSON).

Definition process_url : string := "http://localhost:8000/process".

(** The body of the request of lines 47-55. *)
Definition request_body (func_name : string) (kwargs : list (string * JSON)) : JSON :=
  JArray [JObject [("type", JString "function");
                   ("function", JObject [("name", JString func_name);
                                         ("arguments", JObject kwargs)])]].

(** [value[0]] *)
Definition subscript_0 (value : JSON) : Cli.Exception + JSON :=
  match value with
  | JArray (first :: _) => inr first
  | JArray [] => inl "list index out of range"
  | JObject _ => inl "0"
  | JString (String c _) => inr (JString (String c EmptyString))
  | JString EmptyString => inl "string index out of range"
  end.

(** [value["content"]] *)
Definition subscript_content (value : JSON) : Cli.Exception + JSON :=
  match value with
  | JObject members =>
      match member "content" members with
      | Some v => inr v
      | None => inl "'content'"
      end
  | JArray _ => inl "list indices must be integers or slices, not str"
  | JString _ => inl "string indices must be integers, not 'str'"
  end.

Section Http.

(** [requests.post(url, json=body).json()], the rendering of the keyword
    arguments in an f-string, and the [MarkupError] that [rich.print] raises
    on a text, if any. *)
Variable post : string -> JSON -> Cli.Exception + JSON.
Variable repr_kwargs : list (string * JSON) -> string.
Variable markup_error : string -> option Cli.Exception.

Definition executing (self : Wrapper) (func_name : string)
  (kwargs : list (string * JSON)) : string :=
  "executing " +:+ self_name self +:+ "." +:+ func_name +:+ repr_kwargs kwargs +:+ " ...".

(** [_execute_function] (lines 42-56): the message goes to [rich.print]
    first, and the request is posted only when rich has taken it. *)
Definition execute_function (self : Wrapper) (func_name : string)
  (args : list JSON) (kwargs : list (string * JSON))
  : (Cli.Exception + JSON) * list Request :=
  match markup_error (executing self func_name kwargs) with
  | Some e => (inl e, [])
  | None =>
      let body := request_body func_name kwargs in
      (match post process_url body with
       | inl e => inl e
       | inr response =>
           match subscript_0 response with
           | inl e => inl e
           | inr first => subscript_content first
           end
       end,
       [RqPrint (executing self func_name kwargs); RqPost process_url body])
  end.

Definition str_not_callable : Cli.Exception := "'str' object is not callable".

Definition dict_not_callable : Cli.Exception := "'dict' object is not callable".

(** A call [self.method(...)] for a name that [setattr] has put on the
    class.  The attributes [tool], [name] and [description] of the instance
    hide a class attribute of the same name, and a dictionary or a string is
    not callable.  Otherwise the lambda reads its cell and calls
    [self._execute_function].  The result is [None] where this model stops:
    when there is no such name, when the class is no longer [ordinary], and
    when [_execute_function] itself has been replaced by a lambda, which
    then calls itself without end. *)
Definition call_method (st : Interp) (self : Wrapper) (method : string)
  (args : list JSON) (kwargs : list (string * JSON))
  : option ((Cli.Exception + JSON) * list Request) :=
  if negb (ordinary st) then None
  else if String.eqb method "tool" then Some (inl dict_not_callable, [])
  else if String.eqb method "name" || String.eqb method "description"
  then Some (inl str_not_callable, [])
  else
    match Wrapper_attrs st !! method, Wrapper_attrs st !! "_execute_function" with
    | Some cell, None =>
        match cells st !! cell with
        | Some (Some function) =>
            Some (execute_function self (fn_name function) args kwargs)
        | _ => None
        end
    | _, _ => None
    end.

End Http.

End Rigging.

(** ** Reading a log of events *)
Module Trace.

Import Cli.

(** The prompts shown, in order. *)
Definition prompts_of (events : list Event) : list string :=
  flat_map (fun ev => match ev with EvPrompt prompt => [prompt] | _ => [] end) events.

(** The batches handed to [process], in order. *)
Definition batches_of (events : list Event) : list (list Robocall) :=
  flat_map (fun ev => match ev with EvProcess calls _ => [calls] | _ => [] end) events.

End Trace.

(** ** More concrete data *)
Module MoreExamples.

Import Core.

Definition nmap_tool : Rigging.Tool :=
  Rigging.mkTool "nmap" "Port scanner."
    [Rigging.mkToolFunction "quick_scan" "Scan the common ports." [];
     Rigging.mkToolFunction "full_scan" "Scan every port." []].

Definition http_tool : Rigging.Tool :=
  Rigging.mkTool "httpx" "HTTP prober."
    [Rigging.mkToolFunction "quick_scan" "Probe the common paths." [];
     Rigging.mkToolFunction "probe" "Probe one URL." []].

Definition fresh : Rigging.Interp := Rigging.mkInterp [] ∅.

(** A server that answers every request with two results. *)
Definition server (url : string) (body : JSON) : Cli.Exception + JSON :=
  inr (JArray [JObject [("content", JString "open: 22, 80")];
               JObject [("content", JString "ignored")]]).

(** The [repr] of a value whose strings hold no quote, no backslash and no
    control character. *)
Fixpoint show_value (value : JSON) : string :=
  match value with
  | JString s => "'" +:+ s +:+ "'"
  | JArray items => "[" +:+ String.concat ", " (map show_value items) +:+ "]"
  | JObject members =>
      "{" +:+ String.concat ", "
                (map (fun kv : string * JSON =>
                        "'" +:+ fst kv +:+ "': " +:+ show_value (snd kv))
                     members)
          +:+ "}"
  end.

Definition show_kwargs (kwargs : list (string * JSON)) : string :=
  show_value (JObject kwargs).

(** A file system with one local archive and one existing directory. *)
Definition on_disk (path : string) : bool :=
  String.eqb path "pages.zip" || String.eqb path "/home/user/robopages".

Definition unreachable (url : string) : Cli.Exception + string :=
  inl "Redirect response '302 Found'".

Definition reachable (url : string) : Cli.Exception + string := inr "PK...".

Definition unzip (archive : Shell.Archive) (destination : Cli.Path)
  : Cli.Exception + unit :=
  inr tt.

Definition last_segment (path : Cli.Path) : string := "robopage.yml".

Definition write_example (path : Cli.Path) : Cli.Exception + unit := inr tt.

(** A registry that cannot be read. *)
Definition unreadable (path : Cli.Path) (filter : option string)
  : Cli.Exception + Robook :=
  inl "[Errno 13] Permission denied".

End MoreExamples.

(** ** Stand-ins for the console, the file system and [json.dumps] *)
Module Doubles.

Import Core.

(** [str.isspace] on ASCII. *)
Definition is_space (c : ascii) : bool :=
  let n := nat_of_ascii c in
  (Nat.leb 9 n && Nat.leb n 13) || (Nat.leb 28 n && Nat.leb n 32).

Fixpoint lstrip (s : string) : string :=
  match s with
  | EmptyString => EmptyString
  | String c s' => if is_space c then lstrip s' else s
  end.

Fixpoint rstrip (s : string) : string :=
  match s with
  | EmptyString => EmptyString
  | String c s' =>
      match rstrip s' with
      | EmptyString => if is_space c then EmptyString else String c EmptyString
      | kept => String c kept
      end
  end.

(** [str.strip] on ASCII text. *)
Definition strip (s : string) : string := rstrip (lstrip s).

(** rich on a text whose only tag that matches nothing is the closing tag
    [/x]: the [MarkupError] names the tag and where it stands. *)
Definition closing_x_error (text : string) : option Cli.Exception :=
  match String.index 0 "[/x]" text with
  | Some position =>
      Some ("closing tag '[/x]' at position " +:+ pretty position
              +:+ " doesn't match any open tag")
  | None => None
  end.

(** A console that takes every text. *)
Definition no_markup_error (text : string) : option Cli.Exception := None.

(** A file system where every file can be written. *)
Definition writable (path : Cli.Path) (data : string) : option Cli.Exception := None.

Definition quote : string := String (ascii_of_nat 34) EmptyString.

Definition newline : string := String (ascii_of_nat 10) EmptyString.

Definition hex_digit (n : nat) : ascii :=
  ascii_of_nat (if Nat.ltb n 10 then 48 + n else 87 + n).

(** [json.dumps] on one character, with [ensure_ascii]: the characters from
    the space to the tilde stand for themselves, but for the quote and the
    backslash. *)
Definition escape_char (c : ascii) : string :=
  let n := nat_of_ascii c in
  if Nat.eqb n 34 then "\" +:+ quote
  else if Nat.eqb n 92 then "\\"
  else if Nat.eqb n 10 then "\n"
  else if Nat.eqb n 13 then "\r"
  else if Nat.eqb n 9 then "\t"
  else if Nat.eqb n 8 then "\b"
  else if Nat.eqb n 12 then "\f"
  else if Nat.leb 32 n && Nat.leb n 126 then String c EmptyString
  else "\u00" +:+ String (hex_digit (n / 16)) (String (hex_digit (n mod 16)) EmptyString).

Fixpoint escape (s : string) : string :=
  match s with
  | EmptyString => EmptyString
  | String c s' => escape_char c +:+ escape s'
  end.

Fixpoint spaces (n : nat) : string :=
  match n with
  | O => EmptyString
  | S n' => String " " (spaces n')
  end.

(** [json.dumps(value, indent=indent)], at nesting depth [level]. *)
Fixpoint dumps_at (indent level : nat) (value : JSON) : string :=
  let inner := newline +:+ spaces (indent * S level) in
  let outer := newline +:+ spaces (indent * level) in
  match value with
  | JString s => quote +:+ escape s +:+ quote
  | JArray [] => "[]"
  | JArray items =>
      "[" +:+ inner
          +:+ String.concat ("," +:+ inner) (map (dumps_at indent (S level)) items)
          +:+ outer +:+ "]"
  | JObject [] => "{}"
  | JObject members =>
      "{" +:+ inner
          +:+ String.concat ("," +:+ inner)
                (map (fun kv : string * JSON =>
                        quote +:+ escape (fst kv) +:+ quote +:+ ": "
                              +:+ dumps_at indent (S level) (snd kv))
                     members)
          +:+ outer +:+ "}"
  end.

Definition dumps (schema : list JSON) (indent : nat) : string :=
  dumps_at indent 0 (JArray schema).

(** A registry with one function, whose description quotes a tag. *)
Definition tagged : Function :=
  mkFunction "Close the tag [/x] of a page." [("page", mkParam "string" "page" true None)]
             "close ${page}".

Definition tagged_book : Robook :=
  mkRobook [("tags.yml", mkRobopage "Tags" "Markup tools." [] [("close", tagged)])].

Definition from_path_tagged (path : Cli.Path) (filter : option string)
  : Cli.Exception + Robook :=
  inr tagged_book.

End Doubles.

(** ** Facts about the registry and the dispatcher *)
Module CoreFacts.

Import Core.

(** *** Case folding *)

Lemma lower_upper_ascii (c : ascii) : lower_ascii (upper_ascii c) = lower_ascii c.
Proof. destruct c as [[] [] [] [] [] [] [] []]; reflexivity. Qed.

Lemma lower_lower_ascii (c : ascii) : lower_ascii (lower_ascii c) = lower_ascii c.
Proof. destruct c as [[] [] [] [] [] [] [] []]; reflexivity. Qed.

Lemma lower_upper (s : string) : lower (upper s) = lower s.
Proof.
  induction s as [|c s IH]; simpl; [reflexivity |].
  now rewrite lower_upper_ascii, IH.
Qed.

Lemma lower_lower (s : string) : lower (lower s) = lower s.
Proof.
  induction s as [|c s IH]; simpl; [reflexivity |].
  now rewrite lower_lower_ascii, IH.
Qed.

Lemma existsb_map_upper (needle : string) (labels : list string) :
  existsb (fun label => contains needle (lower label)) (map upper labels)
  = existsb (fun label => contains needle (lower label)) labels.
Proof.
  induction labels as [|l labels IH]; simpl; [reflexivity |].
  now rewrite lower_upper, IH.
Qed.

Lemma page_matches_case (f : string) (page : Robopage) :
  page_matches (upper f) page = page_matches f page /\
  page_matches (lower f) page = page_matches f page /\
  page_matches f (mkRobopage (upper (name page)) (page_description page)
                             (map upper (categories page)) (functions page))
  = page_matches f page.
Proof.
  unfold page_matches. rewrite lower_upper, lower_lower. simpl.
  now rewrite lower_upper, existsb_map_upper.
Qed.

(** *** Substring search *)

Lemma prefix_iff (p s : string) :
  String.prefix p s = true <-> exists post, s = p +:+ post.
Proof.
  revert s; induction p as [|a p IH]; intros s.
  - destruct s; simpl; (split; [intros _; eexists; reflexivity | reflexivity]).
  - destruct s as [|b s]; simpl.
    + split; [discriminate | intros [post H]; discriminate].
    + destruct (ascii_dec a b) as [->|Hab].
      * rewrite IH. split; intros [post H]; exists post.
        -- now rewrite H.
        -- now inversion H.
      * split; [discriminate | intros [post H]; inversion H; congruence].
Qed.

Lemma contains_empty (p : string) :
  contains p "" = String.prefix p "".
Proof. simpl. apply orb_false_r. Qed.

Lemma contains_String (p : string) (c : ascii) (s : string) :
  contains p (String c s) = String.prefix p (String c s) || contains p s.
Proof. reflexivity. Qed.

Lemma contains_iff (p s : string) :
  contains p s = true <-> exists pre post, s = pre +:+ p +:+ post.
Proof.
  induction s as [|c s IH].
  - rewrite contains_empty, prefix_iff. split.
    + intros [post H]. exists "", post. exact H.
    + intros [pre [post H]]. destruct pre; [exists post; exact H | discriminate].
  - rewrite contains_String, orb_true_iff, prefix_iff, IH. split.
    + intros [[post H] | [pre [post H]]].
      * exists "", post. exact H.
      * exists (String c pre), post. simpl. now rewrite H.
    + intros [pre [post H]]. destruct pre as [|c' pre]; simpl in H.
      * left. exists post. exact H.
      * right. exists pre, post. now inversion H.
Qed.

Lemma page_matches_iff (f : string) (page : Robopage) :
  page_matches f page = true <->
  exists label, label ∈ name page :: categories page /\
                exists pre post, lower label = pre +:+ lower f +:+ post.
Proof.
  unfold page_matches. rewrite orb_true_iff, existsb_exists, contains_iff.
  split.
  - intros [H | [label [Hin H]]].
    + exists (name page). split; [left | exact H].
    + exists label. split; [right; now apply list_elem_of_In | now apply contains_iff].
  - intros [label [Hin H]]. apply elem_of_cons in Hin as [-> | Hin].
    + left. exact H.
    + right. exists label. split; [now apply list_elem_of_In | now apply contains_iff].
Qed.

(** *** Loading *)

Lemma filter_none {A : Type} (keep : A -> bool) (l : list A) :
  existsb keep l = false -> List.filter keep l = [].
Proof.
  induction l as [|x l IH]; simpl; [reflexivity |].
  intros H. apply orb_false_iff in H as [Hx Hl]. rewrite Hx. now apply IH.
Qed.

Lemma load_pages (root : list SourceFile) (filter : option string)
  (book : Robook) (errors : list LoadError) :
  load root filter = inr (book, errors) ->
  pages book = List.filter (fun kp : string * Robopage => keeps filter (snd kp))
                           (fst (loader root))
  /\ errors = snd (loader root).
Proof.
  unfold load. destruct (loader root) as [loaded errs]. simpl.
  destruct (first_duplicate _); [discriminate |].
  intros H. inversion H; subst. split; reflexivity.
Qed.

(** *** Dispatch *)

Section Dispatcher.

Context {W : Type}.
Variable confirm : string -> string -> W -> Decision * W.
Variable execute : string -> W -> ExecOutcome * W.

Abbreviation dispatch := (dispatch confirm execute).
Abbreviation process := (process confirm execute).

Lemma process_cons book call calls interactive w spawned :
  process book (call :: calls) interactive w spawned =
  let step := dispatch book interactive call w spawned in
  let tail := process book calls interactive (snd (fst step)) (snd step) in
  (fst (fst step) :: fst (fst tail), snd (fst tail), snd tail).
Proof.
  simpl. destruct (dispatch book interactive call w spawned) as [[r w1] s1].
  simpl. destruct (process book calls interactive w1 s1) as [[rs w2] s2].
  reflexivity.
Qed.

Lemma process_app book pre post interactive w spawned :
  process book (pre ++ post) interactive w spawned =
  let before := process book pre interactive w spawned in
  let after := process book post interactive (snd (fst before)) (snd before) in
  (fst (fst before) ++ fst (fst after), snd (fst after), snd after).
Proof.
  revert w spawned; induction pre as [|call pre IH]; intros w spawned.
  - simpl. now destruct (process book post interactive w spawned) as [[rs w2] s2].
  - rewrite <- app_comm_cons, !process_cons. cbv zeta. rewrite IH. reflexivity.
Qed.

Lemma process_length book calls interactive w spawned :
  length (fst (fst (process book calls interactive w spawned))) = length calls.
Proof.
  revert w spawned; induction calls as [|call calls IH]; intros w spawned.
  - reflexivity.
  - rewrite process_cons. cbv zeta. simpl. now rewrite IH.
Qed.

Lemma process_lookup book calls interactive w spawned i call :
  calls !! i = Some call ->
  let before := process book (take i calls) interactive w spawned in
  fst (fst (process book calls interactive w spawned)) !! i =
  Some (fst (fst (dispatch book interactive call (snd (fst before)) (snd before)))).
Proof.
  revert i w spawned; induction calls as [|call0 calls IH]; intros i w spawned Hi.
  - discriminate.
  - destruct i as [|i].
    + inversion Hi; subst. rewrite process_cons. reflexivity.
    + change (take (S i) (call0 :: calls)) with (call0 :: take i calls).
      rewrite !process_cons. cbv zeta. simpl fst. simpl snd.
      apply (IH i _ _ Hi).
Qed.

Lemma missing_required_elem f args param_name parameter :
  (param_name, parameter) ∈ parameters f ->
  required parameter = true ->
  args !! param_name = None ->
  param_name ∈ missing_required f args.
Proof.
  intros Hin Hreq Hnone. unfold missing_required.
  apply list_elem_of_In, in_map_iff. exists (param_name, parameter).
  split; [reflexivity |]. apply filter_In. split.
  - now apply list_elem_of_In.
  - simpl. rewrite Hreq. simpl. now apply bool_decide_eq_true.
Qed.

Lemma dispatch_missing book interactive call w spawned f :
  find book (call_name (function call)) = Some f ->
  missing_required f (arguments (function call)) <> [] ->
  dispatch book interactive call w spawned =
  (validation_result (missing_required f (arguments (function call))), w, spawned).
Proof.
  intros Hf Hm. unfold Core.dispatch. rewrite Hf.
  destruct (missing_required f (arguments (function call))); [contradiction | reflexivity].
Qed.

End Dispatcher.

(** *** Schema *)

Lemma required_names_iff (f : Function) (x : string) :
  x ∈ required_names f <->
  exists p, (x, p) ∈ parameters f /\ required p = true.
Proof.
  unfold required_names. rewrite list_elem_of_In, in_map_iff. split.
  - intros [[n p] [Hn Hin]]. simpl in Hn. subst n.
    apply filter_In in Hin as [Hin Hreq]. exists p.
    split; [now apply list_elem_of_In | exact Hreq].
  - intros [p [Hin Hreq]]. exists (x, p). split; [reflexivity |].
    apply filter_In. split; [now apply list_elem_of_In | exact Hreq].
Qed.

(** *** The scenarios of section 8, on the example registry *)

Example scenario_A :
  process Examples.operator Examples.runner Examples.book
          [Examples.call_ping] false [] []
  = ([mkResult "ran: ping -c 1 127.0.0.1" StatusOk], [], ["ping -c 1 127.0.0.1"]).
Proof. reflexivity. Qed.

Example scenario_B :
  process Examples.operator Examples.runner Examples.book
          [Examples.call_ping_bare] false [] []
  = ([validation_result ["target"]], [], []).
Proof. reflexivity. Qed.

Example scenario_C :
  process Examples.operator Examples.runner Examples.book
          [Examples.call_nonexistent; Examples.call_ping] false [] []
  = ([not_found_result "nonexistent"; mkResult "ran: ping -c 1 127.0.0.1" StatusOk],
     [], ["ping -c 1 127.0.0.1"]).
Proof. reflexivity. Qed.

Example scenario_D :
  process Examples.operator Examples.runner Examples.book
          [Examples.call_ping] true ["n"] []
  = ([skipped_result], [], []).
Proof. reflexivity. Qed.

Example bind_default_and_unreferenced :
  bind_template Examples.scan {[ "target" := "10.0.0.1"; "extra" := "${ports}" ]}
  = "nmap -p 1-1024 10.0.0.1".
Proof. reflexivity. Qed.

(** *** The claims on the registry and the dispatcher *)

(** C1. For every batch of calls, whatever the Interactive Gate and the
    execution of the commands answer, [process] returns exactly one Result
    per call, at the index of that call: the list is as long as the batch
    and its [i]-th entry is what [dispatch] yields for the [i]-th call, in
    the state that the calls before it left.  Not-found, validation,
    execution, timeout and decline all end as that entry; [process] has no
    other way to end. *)
Theorem process_one_result_per_call {W : Type}
  (confirm : string -> string -> W -> Decision * W)
  (execute : string -> W -> ExecOutcome * W)
  (book : Robook) (calls : list Robocall) (interactive : bool)
  (w : W) (spawned : list string) :
  let results := fst (fst (process confirm execute book calls interactive w spawned)) in
  length results = length calls /\
  forall (i : nat) (call : Robocall),
    calls !! i = Some call ->
    let before := process confirm execute book (take i calls) interactive w spawned in
    results !! i =
    Some (fst (fst (dispatch confirm execute book interactive call
                             (snd (fst before)) (snd before)))).
Proof.
  cbv zeta. split.
  - apply process_length.
  - intros i call Hi. now apply process_lookup.
Qed.

Lemma process_one_result_per_call_witness :
  let batch := [Examples.call_ping; Examples.call_ping_bare;
                Examples.call_nonexistent; Examples.call_ping] in
  let results :=
    fst (fst (process Examples.operator Examples.runner Examples.book
                      batch true ["n"; "y"] [])) in
  length results = 4 /\
  results !! 2 = Some (not_found_result "nonexistent") /\
  results !! 3 = Some (mkResult "ran: ping -c 1 127.0.0.1" StatusOk).
Proof.
  cbv zeta.
  destruct (process_one_result_per_call
              Examples.operator Examples.runner Examples.book
              [Examples.call_ping; Examples.call_ping_bare;
               Examples.call_nonexistent; Examples.call_ping]
              true ["n"; "y"] []) as [Hlen Hat].
  split; [exact Hlen |]. split.
  - exact (Hat 2 Examples.call_nonexistent eq_refl).
  - exact (Hat 3 Examples.call_ping eq_refl).
Defined.

(** C2. A call that resolves to a Function and lacks one of its required
    Parameters yields a Validation-error Result and starts no external
    process: inside any batch, its entry is the validation Result, and the
    state of the outside and the list of started commands go from the
    calls before it to the calls after it unchanged. *)
Theorem missing_required_is_validation_error {W : Type}
  (confirm : string -> string -> W -> Decision * W)
  (execute : string -> W -> ExecOutcome * W)
  (book : Robook) (interactive : bool)
  (pre post : list Robocall) (call : Robocall) (w : W) (spawned : list string)
  (f : Function) (param_name : string) (parameter : Param) :
  find book (call_name (function call)) = Some f ->
  (param_name, parameter) ∈ parameters f ->
  required parameter = true ->
  arguments (function call) !! param_name = None ->
  let missing := missing_required f (arguments (function call)) in
  let before := process confirm execute book pre interactive w spawned in
  let after := process confirm execute book post interactive
                       (snd (fst before)) (snd before) in
  param_name ∈ missing /\
  status (validation_result missing) = StatusError Validation /\
  (forall (w' : W) (spawned' : list string),
      dispatch confirm execute book interactive call w' spawned'
      = (validation_result missing, w', spawned')) /\
  process confirm execute book (pre ++ call :: post) interactive w spawned
  = (fst (fst before) ++ validation_result missing :: fst (fst after),
     snd (fst after), snd after).
Proof.
  intros Hf Hin Hreq Hnone. cbv zeta.
  pose proof (missing_required_elem f _ _ _ Hin Hreq Hnone) as Hm.
  assert (Hne : missing_required f (arguments (function call)) <> []).
  { intros E. rewrite E in Hm. now apply not_elem_of_nil in Hm. }
  split; [exact Hm |]. split; [reflexivity |]. split.
  - intros w' spawned'. now apply dispatch_missing.
  - rewrite process_app. cbv zeta. rewrite process_cons. cbv zeta.
    rewrite (dispatch_missing confirm execute _ _ _ _ _ f Hf Hne). reflexivity.
Qed.

Lemma missing_required_is_validation_error_witness :
  fst (fst (process Examples.operator Examples.runner Examples.book
                    [Examples.call_ping; Examples.call_ping_bare; Examples.call_ping]
                    false [] []))
  = [mkResult "ran: ping -c 1 127.0.0.1" StatusOk;
     validation_result ["target"];
     mkResult "ran: ping -c 1 127.0.0.1" StatusOk]
  /\ snd (process Examples.operator Examples.runner Examples.book
                  [Examples.call_ping; Examples.call_ping_bare; Examples.call_ping]
                  false [] [])
     = ["ping -c 1 127.0.0.1"; "ping -c 1 127.0.0.1"].
Proof.
  pose proof (missing_required_is_validation_error
                Examples.operator Examples.runner Examples.book false
                [Examples.call_ping] [Examples.call_ping] Examples.call_ping_bare
                [] [] Examples.ping "target" Examples.target
                eq_refl (list_elem_of_here _ _) eq_refl eq_refl) as H.
  cbv zeta in H. destruct H as (_ & _ & _ & H).
  change ([Examples.call_ping; Examples.call_ping_bare; Examples.call_ping])
    with ([Examples.call_ping] ++ Examples.call_ping_bare :: [Examples.call_ping]).
  rewrite H. split; reflexivity.
Defined.

(** C3. For every Book, the OpenAI translation has one entry per Function,
    in the order of [functions()]; each entry has [type] "function" and
    [function.parameters.type] "object", and its [required] list holds
    exactly the names of the Function's Parameters whose required flag is
    set. *)
Theorem openai_schema_shape (book : Robook) :
  Forall2
    (fun (e : Robopage * string * Function) (entry : JSON) =>
       json_get ["type"] entry = Some (JString "function") /\
       json_get ["function"; "parameters"; "type"] entry = Some (JString "object") /\
       json_get ["function"; "parameters"; "required"] entry
       = Some (JArray (map JString (required_names (snd e)))) /\
       forall x : string,
         x ∈ required_names (snd e) <->
         exists p : Param, (x, p) ∈ parameters (snd e) /\ required p = true)
    (book_functions book) (toSchema OpenAI book).
Proof.
  unfold toSchema. induction (book_functions book) as [|e l IH]; simpl.
  - constructor.
  - constructor; [| exact IH].
    repeat split; try reflexivity; apply required_names_iff.
Qed.

(** C7. The filter of [load] keeps a Page exactly when the lower-cased
    filter is a substring of the lower-cased Page name or of one of its
    lower-cased category labels, so that changing the case of the filter,
    of the name or of the labels changes nothing; the Book of a successful
    load holds the loaded Pages that match, and a filter that matches no
    Page gives the empty Book, with the Loader's errors, not a failure. *)
Theorem filter_is_case_insensitive_substring (root : list SourceFile) (f : string) :
  (forall page : Robopage,
      page_matches f page = true <->
      exists label : string,
        label ∈ name page :: categories page /\
        exists pre post : string, lower label = pre +:+ lower f +:+ post) /\
  (forall page : Robopage,
      page_matches (upper f) page = page_matches f page /\
      page_matches (lower f) page = page_matches f page /\
      page_matches f (mkRobopage (upper (name page)) (page_description page)
                                 (map upper (categories page)) (functions page))
      = page_matches f page) /\
  (forall (book : Robook) (errors : list LoadError),
      load root (Some f) = inr (book, errors) ->
      forall kp : string * Robopage,
        kp ∈ pages book <-> kp ∈ fst (loader root) /\ page_matches f (snd kp) = true) /\
  (existsb (fun kp : string * Robopage => page_matches f (snd kp)) (fst (loader root))
   = false ->
   load root (Some f) = inr (mkRobook [], snd (loader root))).
Proof.
  split; [apply page_matches_iff |]. split; [apply page_matches_case |]. split.
  - intros book errors Hload kp.
    apply load_pages in Hload as [-> _]. simpl.
    rewrite !list_elem_of_In, filter_In. reflexivity.
  - intros Hnone. unfold load. destruct (loader root) as [loaded errs]. simpl in *.
    rewrite (filter_none _ _ Hnone). reflexivity.
Qed.

Lemma filter_is_case_insensitive_substring_witness :
  load Examples.root (Some "NET")
  = inr (Examples.book, [mkLoadError "broken.yml" "not a mapping"])
  /\ load Examples.root (Some "etw")
     = inr (Examples.book, [mkLoadError "broken.yml" "not a mapping"])
  /\ load Examples.root (Some "nmap")
     = inr (mkRobook [], [mkLoadError "broken.yml" "not a mapping"]).
Proof.
  split; [reflexivity |]. split; [reflexivity |].
  exact (proj2 (proj2 (proj2 (filter_is_case_insensitive_substring
                                Examples.root "nmap")))
               eq_refl).
Defined.

End CoreFacts.

(** ** Facts about the command-line front end *)
Module CliFacts.

Import Cli.

Lemma truthy_true value : truthy value = true <-> value <> "".
Proof. destruct value; simpl; split; congruence. Qed.

Lemma truthy_false value : truthy value = false <-> value = "".
Proof. destruct value; simpl; split; congruence. Qed.

Lemma map_replicate {A B : Type} (g : A -> B) (k : nat) (x : A) :
  map g (replicate k x) = replicate k (g x).
Proof. induction k as [|k IH]; simpl; [reflexivity | now rewrite IH]. Qed.

(** *** The prompt loop of [run] *)

Section Prompts.

Variable markup_error : string -> option Exception.
Variable strip : string -> string.

Abbreviation ask_value := (Cli.ask_value markup_error strip).
Abbreviation ask_values := (Cli.ask_values markup_error strip).

Lemma ask_value_unfold n p args lines events :
  ask_value n p args lines events =
  match markup_error (prompt_text n) with
  | Some e => (inl e, lines, events)
  | None =>
      match lines with
      | [] => (inl EOFError, [], events ++ [EvPrompt (prompt_text n)])
      | line :: rest =>
          if truthy (strip line)
          then (inr (<[n := strip line]> args), rest,
                events ++ [EvPrompt (prompt_text n)])
          else if negb (required p)
          then (inr args, rest, events ++ [EvPrompt (prompt_text n)])
          else ask_value n p args rest (events ++ [EvPrompt (prompt_text n)])
      end
  end.
Proof. destruct lines; reflexivity. Qed.

(** How a round of prompts for one parameter can end well: after the lines
    [blanks], which strip to nothing, the line [line] settles it. *)
Lemma ask_value_inr n p args lines events args' rest events' :
  ask_value n p args lines events = (inr args', rest, events') ->
  markup_error (prompt_text n) = None /\
  exists blanks line,
    lines = blanks ++ line :: rest /\
    Forall (fun b => strip b = "") blanks /\
    events' = events ++ replicate (S (length blanks)) (EvPrompt (prompt_text n)) /\
    ((strip line <> "" /\ args' = <[n := strip line]> args
      /\ (blanks = [] \/ required p = true))
     \/ (strip line = "" /\ blanks = [] /\ required p = false /\ args' = args)).
Proof.
  revert events; induction lines as [|line lines IH]; intros events H;
    rewrite ask_value_unfold in H;
    destruct (markup_error (prompt_text n)) eqn:Hm; try discriminate.
  split; [reflexivity |].
  destruct (truthy (strip line)) eqn:Hv.
  - inversion H; subst. exists [], line. apply truthy_true in Hv.
    repeat split; auto.
  - apply truthy_false in Hv. destruct (required p) eqn:Hreq; cbn [negb] in H.
    + apply IH in H as (_ & blanks & last & -> & Hblank & -> & Hcases).
      exists (line :: blanks), last. cbn [length replicate app].
      rewrite <- app_assoc. repeat split; auto.
      destruct Hcases as [(Hl & Ha & _) | (_ & _ & Hopt & _)]; [| congruence].
      left. auto.
    + inversion H; subst. exists [], line. repeat split; auto.
Qed.

Lemma ask_value_events n p args lines events r rest events' :
  ask_value n p args lines events = (r, rest, events') ->
  exists k, events' = events ++ replicate k (EvPrompt (prompt_text n)).
Proof.
  revert events; induction lines as [|line lines IH]; intros events H;
    rewrite ask_value_unfold in H;
    destruct (markup_error (prompt_text n));
    try (inversion H; exists 0; now rewrite app_nil_r);
    try (inversion H; now exists 1).
  destruct (truthy (strip line)); [inversion H; now exists 1 |].
  destruct (negb (required p)); [inversion H; now exists 1 |].
  apply IH in H as [k ->]. exists (S k). now rewrite <- app_assoc.
Qed.

Lemma ask_values_app pre post args lines events :
  ask_values (pre ++ post) args lines events =
  match ask_values pre args lines events with
  | (inl e, rest, events') => (inl e, rest, events')
  | (inr args', rest, events') => ask_values post args' rest events'
  end.
Proof.
  revert args lines events; induction pre as [|[n p] pre IH]; intros args lines events.
  - reflexivity.
  - cbn [app Cli.ask_values].
    destruct (ask_value n p args lines events) as [[[e|a] r] ev];
      [reflexivity | apply IH].
Qed.

Lemma ask_values_events params args lines events r rest events' :
  ask_values params args lines events = (r, rest, events') ->
  exists prompts, events' = events ++ map EvPrompt prompts.
Proof.
  revert args lines events; induction params as [|[n p] params IH];
    intros args lines events H; cbn [Cli.ask_values] in H.
  - inversion H. exists []. now rewrite app_nil_r.
  - destruct (ask_value n p args lines events) as [[[e|a] r1] ev1] eqn:Hv.
    + inversion H; subst. apply ask_value_events in Hv as [k ->].
      exists (replicate k (prompt_text n)). now rewrite map_replicate.
    + apply ask_value_events in Hv as [k ->].
      apply IH in H as [prompts ->].
      exists (replicate k (prompt_text n) ++ prompts).
      now rewrite map_app, map_replicate, app_assoc.
Qed.

(** What the loop over the parameters does to the mapping it builds. *)
Lemma ask_values_inr params args lines events args' rest events' :
  ask_values params args lines events = (inr args', rest, events') ->
  (forall k v, args' !! k = Some v -> args !! k = Some v \/ v <> "") /\
  (forall k, k ∉ params.*1 -> args' !! k = args !! k) /\
  (forall k, is_Some (args !! k) -> is_Some (args' !! k)) /\
  (forall n p, (n, p) ∈ params -> required p = true -> is_Some (args' !! n)).
Proof.
  revert args lines events; induction params as [|[n p] params IH];
    intros args lines events H; cbn [Cli.ask_values] in H.
  - inversion H; subst. repeat split; auto.
    intros n p Hin. now apply elem_of_nil in Hin.
  - destruct (ask_value n p args lines events) as [[[e|a] r1] ev1] eqn:Hv;
      [discriminate |].
    apply ask_value_inr in Hv as (_ & blanks & line & _ & _ & _ & Hcases).
    apply IH in H as (Hval & Hkeep & Hmono & Hreq).
    assert (Ha : forall j w, a !! j = Some w -> args !! j = Some w \/ w <> "").
    { intros j w Hj.
      destruct Hcases as [(Hv & -> & _) | (_ & _ & _ & ->)]; [| now left].
      destruct (decide (n = j)) as [->|Hne].
      - rewrite lookup_insert_eq in Hj. right. congruence.
      - rewrite lookup_insert_ne in Hj by exact Hne. now left. }
    repeat split.
    + intros j w Hj. apply Hval in Hj as [Hj | Hj]; [now apply Ha | now right].
    + intros j Hj. rewrite fmap_cons, not_elem_of_cons in Hj. destruct Hj as [Hne Hj].
      rewrite (Hkeep j Hj).
      destruct Hcases as [(_ & -> & _) | (_ & _ & _ & ->)]; [| reflexivity].
      apply lookup_insert_ne. simpl in Hne. congruence.
    + intros j Hj. apply Hmono.
      destruct Hcases as [(_ & -> & _) | (_ & _ & _ & ->)]; [| exact Hj].
      destruct (decide (n = j)) as [->|Hne].
      * rewrite lookup_insert_eq. eauto.
      * now rewrite lookup_insert_ne.
    + intros n' p' Hin Hr. apply elem_of_cons in Hin as [Heq | Hin].
      * inversion Heq; subst n' p'. apply Hmono.
        destruct Hcases as [(_ & -> & _) | (_ & _ & Hopt & _)]; [| congruence].
        rewrite lookup_insert_eq. eauto.
      * now apply (Hreq n' p').
Qed.

(** C9. In the argument collection of [run], the mapping built from the
    empty one never holds an empty value and has a value for every
    required parameter.  The value of an answer is the line stripped, as
    [Prompt.ask] returns it.  A required parameter is asked again after
    every answer that is empty and takes the first one that is not; an
    optional parameter answered with an empty value is left out of the
    mapping.  (The names in [params] are the keys of a dictionary, hence
    distinct.) *)
Theorem collected_arguments_have_no_empty_value
  (params : list (string * Param)) (lines rest : list string)
  (events events' : list Event) (args : gmap string string) :
  NoDup (params.*1) ->
  ask_values params ∅ lines events = (inr args, rest, events') ->
  (forall k v, args !! k = Some v -> v <> "") /\
  (forall n p, (n, p) ∈ params -> required p = true ->
               exists v, args !! n = Some v /\ v <> "") /\
  (forall pre n p post a1 l1 e1,
      params = pre ++ (n, p) :: post ->
      ask_values pre ∅ lines events = (inr a1, l1, e1) ->
      (required p = true ->
       exists blanks line l2,
         l1 = blanks ++ line :: l2 /\
         Forall (fun b => strip b = "") blanks /\ strip line <> "" /\
         ask_value n p a1 l1 e1
         = (inr (<[n := strip line]> a1), l2,
            e1 ++ replicate (S (length blanks)) (EvPrompt (prompt_text n))) /\
         args !! n = Some (strip line)) /\
      (required p = false ->
       forall line l2, l1 = line :: l2 -> strip line = "" -> args !! n = None)).
Proof.
  intros Hnodup Hrun.
  pose proof (ask_values_inr _ _ _ _ _ _ _ Hrun) as (Hval & _ & _ & Hreq).
  assert (Hne : forall k v, args !! k = Some v -> v <> "").
  { intros k v Hk. apply Hval in Hk as [Hk | Hk]; [| exact Hk].
    now rewrite lookup_empty in Hk. }
  split; [exact Hne |]. split.
  { intros n p Hin Hr. destruct (Hreq n p Hin Hr) as [v Hv].
    exists v. split; [exact Hv | now apply (Hne n)]. }
  intros pre n p post a1 l1 e1 -> Hpre.
  rewrite ask_values_app, Hpre in Hrun. cbn [Cli.ask_values] in Hrun.
  rewrite fmap_app, fmap_cons in Hnodup. simpl in Hnodup.
  apply NoDup_app in Hnodup as (_ & Hdisj & Hpost).
  apply NoDup_cons in Hpost as [Hpost _].
  assert (Hfresh : a1 !! n = None).
  { apply ask_values_inr in Hpre as (_ & Hkeep & _ & _).
    rewrite Hkeep; [apply lookup_empty |].
    intros Hin. apply (Hdisj n Hin). left. }
  destruct (ask_value n p a1 l1 e1) as [[[e|a] r1] ev1] eqn:Hv; [discriminate |].
  apply ask_values_inr in Hrun as (_ & Hkeep & _ & _).
  specialize (Hkeep n Hpost).
  pose proof (ask_value_inr _ _ _ _ _ _ _ _ Hv)
    as (_ & blanks & line & Hl & Hblank & Hev & Hcases).
  split.
  - intros Hr.
    destruct Hcases as [(Hline & Ha & _) | (_ & _ & Hopt & _)]; [| congruence].
    exists blanks, line, r1. repeat split; auto.
    + now rewrite Ha, Hev.
    + rewrite Hkeep, Ha. apply lookup_insert_eq.
  - intros Hopt line' l2 -> Hempty.
    destruct Hcases as [(Hline & _ & Hk) | (_ & _ & _ & Ha)].
    + destruct Hk as [-> | Hk]; [| congruence].
      simpl in Hl. inversion Hl; congruence.
    + rewrite Hkeep, Ha. exact Hfresh.
Qed.

End Prompts.

Section Commands.

Variable from_path : Path -> option string -> Exception + Robook.
Variable find_function : Robook -> string -> Exception + option Function.
Variable process :
  Robook -> list Robocall -> bool -> list string ->
  (Exception + list Result) * list string.
Variable JSON : Type.
Variable to_openai : Robook -> Exception + JSON.
Variable json_dumps : JSON -> nat -> string.
Variable repr : list Result -> string.
Variable markup_error : string -> option Exception.
Variable strip : string -> string.
Variable write_text : Path -> string -> option Exception.

Abbreviation to_json :=
  (Cli.to_json from_path JSON to_openai json_dumps markup_error write_text).
Abbreviation serve := (Cli.serve from_path).
Abbreviation run_body :=
  (Cli.run_body from_path find_function process repr markup_error strip).
Abbreviation run := (Cli.run from_path find_function process repr markup_error strip).
Abbreviation ask_values := (Cli.ask_values markup_error strip).

(** C4, as the code has it.  [serve] loads the Book once, stores it in the
    module attribute [robopages.api.book], warns when the address is not
    local, and starts the server on the module's own [robopages.api.app];
    the Book is not among the arguments of that call. *)
Theorem serve_stores_book_in_api_module
  (path : Path) (filter : option string) (address : string) (port : Z)
  (w : World) (book : Robook) :
  from_path path filter = inr book ->
  serve path filter address port w =
  (inr tt,
   {| stdin := stdin w;
      api_book := Some book;
      log := log w ++ [EvFromPath path filter]
               ++ (if is_local address then []
                   else [EvPrint external_address_warning])
               ++ [EvUvicornRun ApiApp address port] |}).
Proof.
  intros Hbook. unfold Cli.serve, Robook_from_path, mbind, M_bind, tell, lift.
  rewrite Hbook. unfold set_api_book, emit, print, tell, emit. simpl.
  destruct (is_local address); simpl; rewrite <- ?app_assoc; reflexivity.
Qed.

Lemma run_handles (path : Path) (auto : bool) (function_name : string) (w : World) :
  run path auto function_name w =
  match run_body path auto function_name w with
  | (inr _, w') => (inr tt, w')
  | (inl e, w') =>
      match markup_error (":cross_mark: " +:+ e) with
      | None => (inr tt, emit (EvPrint (":cross_mark: " +:+ e)) w')
      | Some m => (inl m, w')
      end
  end.
Proof.
  unfold Cli.run, try_except, rich_print.
  destruct (Cli.run_body _ _ _ _ _ _ _ _ _ w) as [[e | []] w']; [| reflexivity].
  destruct (markup_error (":cross_mark: " +:+ e)); reflexivity.
Qed.

Lemma run_body_not_found (path : Path) (auto : bool) (function_name : string)
  (w : World) (book : Robook) :
  from_path path None = inr book ->
  find_function book function_name = inr None ->
  run_body path auto function_name w =
  (inl (not_found function_name),
   {| stdin := stdin w;
      api_book := api_book w;
      log := log w ++ [EvFromPath path None; EvFindFunction function_name] |}).
Proof.
  intros Hbook Hfind.
  unfold Cli.run_body, Robook_from_path, book_find_function, mbind, M_bind, tell, lift.
  rewrite Hbook. cbn [emit stdin api_book log]. rewrite Hfind.
  unfold raise, emit. cbn [stdin api_book log]. now rewrite <- app_assoc.
Qed.

Lemma run_body_dispatch (path : Path) (auto : bool) (function_name : string)
  (w : World) (book : Robook) (f : Function) (arguments : gmap string string)
  (rest : list string) (events : list Event) :
  from_path path None = inr book ->
  find_function book function_name = inr (Some f) ->
  ask_values (parameters f) ∅ (stdin w)
             (log w ++ [EvFromPath path None; EvFindFunction function_name]
                ++ match parameters f with
                   | [] => []
                   | _ :: _ => [EvPrint ""]
                   end)
  = (inr arguments, rest, events) ->
  let call := mkRobocall (mkFunctionCall function_name arguments) None in
  let outcome := process book [call] (negb auto) rest in
  let world := fun tail =>
    {| stdin := snd outcome;
       api_book := api_book w;
       log := events ++ EvProcess [call] (negb auto) :: tail |} in
  run_body path auto function_name w =
  match fst outcome with
  | inr results => (inr tt, world [EvPrint (repr results)])
  | inl e => (inl e, world [])
  end.
Proof.
  intros Hbook Hfind Hask. cbv zeta.
  unfold Cli.run_body, Robook_from_path, book_find_function, mbind, M_bind, tell, lift.
  rewrite Hbook. cbn [emit stdin api_book log]. rewrite Hfind.
  unfold collect_arguments, book_process.
  destruct (parameters f) as [|np params] eqn:Hparams; cbn [app] in Hask;
    unfold mret, M_ret, print, tell; cbn [emit stdin api_book log];
    rewrite <- !app_assoc; cbn [app]; rewrite Hask;
    cbn [emit stdin api_book log set_stdin];
    (destruct (process book _ (negb auto) rest) as [[e|results] rest'];
     unfold emit, set_stdin; cbn [stdin api_book log fst snd];
     rewrite <- ?app_assoc; reflexivity).
Qed.

(** C5. When the Book loads, the name resolves to a Function and the
    answers collected for its parameters give [arguments], [run] calls
    [process] exactly once, after the last prompt, with the one-element
    batch holding the call of that name with those arguments and with
    [interactive = not auto].  It then prints what [process] returned, or
    the error [process] raised when the console takes its text. *)
Theorem run_processes_single_call
  (path : Path) (auto : bool) (function_name : string) (w : World)
  (book : Robook) (f : Function) (arguments : gmap string string)
  (rest : list string) (events : list Event) :
  from_path path None = inr book ->
  find_function book function_name = inr (Some f) ->
  ask_values (parameters f) ∅ (stdin w)
             (log w ++ [EvFromPath path None; EvFindFunction function_name]
                ++ match parameters f with
                   | [] => []
                   | _ :: _ => [EvPrint ""]
                   end)
  = (inr arguments, rest, events) ->
  let call := mkRobocall (mkFunctionCall function_name arguments) None in
  let outcome := process book [call] (negb auto) rest in
  let world := fun tail =>
    {| stdin := snd outcome;
       api_book := api_book w;
       log := events ++ EvProcess [call] (negb auto) :: tail |} in
  run path auto function_name w =
  match fst outcome with
  | inr results => (inr tt, world [EvPrint (repr results)])
  | inl e =>
      match markup_error (":cross_mark: " +:+ e) with
      | None => (inr tt, world [EvPrint (":cross_mark: " +:+ e)])
      | Some m => (inl m, world [])
      end
  end
  /\ exists prompts,
      events = log w ++ [EvFromPath path None; EvFindFunction function_name]
                 ++ match parameters f with
                    | [] => []
                    | _ :: _ => [EvPrint ""]
                    end
                 ++ map EvPrompt prompts.
Proof.
  intros Hbook Hfind Hask. cbv zeta. split.
  - rewrite run_handles.
    rewrite (run_body_dispatch path auto function_name w book f arguments rest events
               Hbook Hfind Hask).
    cbv zeta. destruct (fst (process book _ (negb auto) rest)) as [e | results];
      [| reflexivity].
    destruct (markup_error (":cross_mark: " +:+ e)); [reflexivity |].
    unfold emit. cbn [stdin api_book log]. rewrite <- app_assoc. reflexivity.
  - apply ask_values_events in Hask as [prompts ->]. exists prompts.
    now rewrite <- !app_assoc.
Qed.

(** C6. When the Book loads and the name resolves to no Function, the body
    of [run] raises the not-found error right after the lookup.  Whether the
    console then takes the text of the error or rejects it, no prompt is
    shown, no line of input is read and [process] is not called. *)
Theorem run_not_found_stops_before_process
  (path : Path) (auto : bool) (function_name : string) (w : World) (book : Robook) :
  from_path path None = inr book ->
  find_function book function_name = inr None ->
  let looked_up :=
    {| stdin := stdin w;
       api_book := api_book w;
       log := log w ++ [EvFromPath path None; EvFindFunction function_name] |} in
  let message := ":cross_mark: function " +:+ function_name +:+ " not found" in
  run_body path auto function_name w
  = (inl ("function " +:+ function_name +:+ " not found"), looked_up) /\
  run path auto function_name w
  = match markup_error message with
    | None => (inr tt, emit (EvPrint message) looked_up)
    | Some m => (inl m, looked_up)
    end /\
  Trace.batches_of (log (snd (run path auto function_name w)))
  = Trace.batches_of (log w) /\
  Trace.prompts_of (log (snd (run path auto function_name w)))
  = Trace.prompts_of (log w) /\
  stdin (snd (run path auto function_name w)) = stdin w.
Proof.
  intros Hbook Hfind. cbv zeta.
  pose proof (run_body_not_found path auto function_name w book Hbook Hfind) as Hbody.
  split; [exact Hbody |].
  assert (Hrun : run path auto function_name w
                 = match markup_error
                           (":cross_mark: function " +:+ function_name +:+ " not found")
                   with
                   | None =>
                       (inr tt,
                        emit (EvPrint (":cross_mark: function " +:+ function_name
                                         +:+ " not found"))
                             {| stdin := stdin w;
                                api_book := api_book w;
                                log := log w ++ [EvFromPath path None;
                                                 EvFindFunction function_name] |})
                   | Some m =>
                       (inl m,
                        {| stdin := stdin w;
                           api_book := api_book w;
                           log := log w ++ [EvFromPath path None;
                                            EvFindFunction function_name] |})
                   end).
  { rewrite run_handles, Hbody. reflexivity. }
  split; [exact Hrun |]. rewrite Hrun.
  unfold Trace.batches_of, Trace.prompts_of.
  destruct (markup_error _); unfold emit; cbn [snd stdin api_book log];
    rewrite ?flat_map_app; cbn [flat_map app]; rewrite ?app_nil_r; auto.
Qed.

End Commands.

(** C4, as the claim has it, fails: on a local address with the example
    registry, [serve] leaves the loaded Book in the module attribute
    [robopages.api.book], which was unset before, and the server is
    started on [robopages.api.app] alone. *)
Lemma serve_writes_api_module_state :
  let w := Examples.console [] in
  let w' := snd (Cli.serve Examples.from_path "pages" None "127.0.0.1" 8000 w) in
  api_book w' <> api_book w /\
  log w' = [EvFromPath "pages" None; EvUvicornRun ApiApp "127.0.0.1" 8000].
Proof. cbv zeta. split; [vm_compute; discriminate | reflexivity]. Qed.

Lemma serve_stores_book_in_api_module_witness :
  Cli.serve Examples.from_path "pages" None "0.0.0.0" 8000 (Examples.console [])
  = (inr tt,
     {| stdin := [];
        api_book := Some Examples.book;
        log := [EvFromPath "pages" None;
                EvPrint external_address_warning;
                EvUvicornRun ApiApp "0.0.0.0" 8000] |}).
Proof.
  exact (serve_stores_book_in_api_module Examples.from_path "pages" None "0.0.0.0"
           8000 (Examples.console []) Examples.book eq_refl).
Defined.

(** C8, at an input where the code breaks it.  The Book holds a function
    whose description quotes the tag [/x].  Without an output file [to_json]
    hands the serialized schema to [rich.print], which rejects it: nothing
    is printed and the [MarkupError] leaves the command.  With an output
    file the same text is written as it is. *)
Theorem to_json_print_rejects_schema_with_tag :
  let data := Doubles.dumps (Core.toSchema Core.OpenAI Doubles.tagged_book) 2 in
  Doubles.closing_x_error data
  = Some "closing tag '[/x]' at position 107 doesn't match any open tag" /\
  Cli.to_json Doubles.from_path_tagged (list Core.JSON) Examples.to_openai Doubles.dumps
              Doubles.closing_x_error Doubles.writable
              "pages" None None (Examples.console [])
  = (inl "closing tag '[/x]' at position 107 doesn't match any open tag",
     {| stdin := []; api_book := None; log := [EvFromPath "pages" None] |}) /\
  Cli.to_json Doubles.from_path_tagged (list Core.JSON) Examples.to_openai Doubles.dumps
              Doubles.closing_x_error Doubles.writable
              "pages" (Some "tools.json") None (Examples.console [])
  = (inr tt,
     {| stdin := [];
        api_book := None;
        log := [EvFromPath "pages" None; EvWriteText "tools.json" data;
                EvPrint ":file_folder: saved to tools.json"] |}).
Proof. cbv zeta. repeat split; vm_compute; reflexivity. Qed.

(** C10, at an input where the code breaks it.  The name [/x] is not in the
    Book; the body raises the not-found error, the handler hands
    ":cross_mark: function [/x] not found" to [rich.print], which rejects
    it, and the [MarkupError] leaves [run]. *)
Theorem run_raises_when_error_text_has_markup :
  Cli.run Examples.from_path Examples.find_function Examples.process_impl
          Examples.repr Doubles.closing_x_error Doubles.strip
          "pages" false "[/x]" (Examples.console [])
  = (inl "closing tag '[/x]' at position 22 doesn't match any open tag",
     {| stdin := [];
        api_book := None;
        log := [EvFromPath "pages" None; EvFindFunction "[/x]"] |}).
Proof. vm_compute. reflexivity. Qed.

Lemma run_processes_single_call_witness :
  Cli.run Examples.from_path Examples.find_function Examples.process_impl
          Examples.repr Doubles.closing_x_error Doubles.strip
          "pages" false "ping" (Examples.console [" "; " 127.0.0.1 "; "y"])
  = (inr tt,
     {| stdin := [];
        api_book := None;
        log := [EvFromPath "pages" None; EvFindFunction "ping"; EvPrint "";
                EvPrompt (prompt_text "target"); EvPrompt (prompt_text "target");
                EvProcess [mkRobocall
                             (mkFunctionCall "ping" {[ "target" := "127.0.0.1" ]})
                             None] true;
                EvPrint "ran: ping -c 1 127.0.0.1"] |}).
Proof.
  exact (proj1 (run_processes_single_call
                  Examples.from_path Examples.find_function Examples.process_impl
                  Examples.repr Doubles.closing_x_error Doubles.strip
                  "pages" false "ping"
                  (Examples.console [" "; " 127.0.0.1 "; "y"])
                  Examples.book Examples.ping {[ "target" := "127.0.0.1" ]} ["y"]
                  [EvFromPath "pages" None; EvFindFunction "ping"; EvPrint "";
                   EvPrompt (prompt_text "target"); EvPrompt (prompt_text "target")]
                  eq_refl eq_refl eq_refl)).
Defined.

Lemma run_not_found_stops_before_process_witness :
  Cli.run Examples.from_path Examples.find_function Examples.process_impl
          Examples.repr Doubles.closing_x_error Doubles.strip
          "pages" true "nonexistent" (Examples.console ["y"])
  = (inr tt,
     {| stdin := ["y"];
        api_book := None;
        log := [EvFromPath "pages" None; EvFindFunction "nonexistent";
                EvPrint ":cross_mark: function nonexistent not found"] |}).
Proof.
  exact (proj1 (proj2 (run_not_found_stops_before_process
                  Examples.from_path Examples.find_function Examples.process_impl
                  Examples.repr Doubles.closing_x_error Doubles.strip
                  "pages" true "nonexistent" (Examples.console ["y"])
                  Examples.book eq_refl eq_refl))).
Defined.


Lemma collected_arguments_have_no_empty_value_witness :
  fst (fst (Cli.ask_values Doubles.no_markup_error Doubles.strip
              (parameters Examples.scan) ∅ [""; " "; " 10.0.0.1 "; "  "; "y"] []))
  = inr {[ "target" := "10.0.0.1" ]}
  /\ forall k v,
      ({[ "target" := "10.0.0.1" ]} : gmap string string) !! k = Some v -> v <> "".
Proof.
  split; [reflexivity |].
  exact (proj1 (collected_arguments_have_no_empty_value
                  Doubles.no_markup_error Doubles.strip
                  (parameters Examples.scan) [""; " "; " 10.0.0.1 "; "  "; "y"] ["y"]
                  [] (replicate 3 (EvPrompt (prompt_text "target"))
                      ++ [EvPrompt (prompt_text "ports")] ++ [])
                  {[ "target" := "10.0.0.1" ]}
                  ltac:(cbn; apply NoDup_cons_2;
                        [apply not_elem_of_cons; split;
                         [discriminate | apply not_elem_of_nil]
                        | apply NoDup_singleton])
                  eq_refl)).
Defined.

End CliFacts.
(** ** Facts about the example client *)
Module RiggingFacts.

Import Core Rigging.

(** *** The loop of [Wrapper.__init__] *)

Lemma init_loop_cells (cell : nat) (items : list ToolFunction) (st : Interp) :
  cells (init_loop cell items st)
  = match last items with
    | Some final => <[cell := Some final]> (cells st)
    | None => cells st
    end.
Proof.
  revert st; induction items as [|function items IH]; intros st; [reflexivity |].
  cbn [init_loop]. rewrite IH, last_cons. cbn [cells].
  destruct (last items); [apply list_insert_insert_eq | reflexivity].
Qed.

Lemma init_loop_attrs (cell : nat) (items : list ToolFunction) (st : Interp)
  (method : string) :
  Wrapper_attrs (init_loop cell items st) !! method
  = if bool_decide (method ∈ map fn_name items) then Some cell
    else Wrapper_attrs st !! method.
Proof.
  revert st; induction items as [|function items IH]; intros st.
  - cbn [init_loop map]. rewrite bool_decide_eq_false_2; [reflexivity |].
    apply not_elem_of_nil.
  - cbn [init_loop map]. rewrite IH. cbn [Wrapper_attrs].
    destruct (bool_decide (method ∈ map fn_name items)) eqn:Hin.
    + apply bool_decide_eq_true_1 in Hin.
      rewrite bool_decide_eq_true_2; [reflexivity | right; exact Hin].
    + apply bool_decide_eq_false_1 in Hin.
      destruct (decide (fn_name function = method)) as [<-|Hne].
      * rewrite lookup_insert_eq, bool_decide_eq_true_2; [reflexivity | left].
      * rewrite lookup_insert_ne by exact Hne.
        rewrite bool_decide_eq_false_2; [reflexivity |].
        rewrite not_elem_of_cons. split; [congruence | exact Hin].
Qed.

Lemma ordinary_lookup (st : Interp) (method : string) (cell : nat) :
  ordinary st = true ->
  Wrapper_attrs st !! method = Some cell ->
  special method = false.
Proof.
  unfold ordinary. intros H Hm. apply bool_decide_eq_true_1 in H.
  exact (H method cell Hm).
Qed.

Lemma Wrapper_init_Some (tool : Tool) (st : Interp) (self : Wrapper) (st' : Interp) :
  Wrapper_init tool st = Some (self, st') ->
  ordinary st = true /\
  self = mkWrapper tool (tool_name tool) (tool_description tool) /\
  st' = init_loop (length (cells st)) (tool_functions tool)
                  {| cells := cells st ++ [None]; Wrapper_attrs := Wrapper_attrs st |}.
Proof.
  unfold Wrapper_init. destruct (ordinary st); [| discriminate].
  intros H. inversion H. auto.
Qed.

Lemma Wrapper_init_attrs (tool : Tool) (st : Interp) (self : Wrapper) (st' : Interp)
  (method : string) :
  Wrapper_init tool st = Some (self, st') ->
  Wrapper_attrs st' !! method
  = if bool_decide (method ∈ map fn_name (tool_functions tool))
    then Some (length (cells st))
    else Wrapper_attrs st !! method.
Proof.
  intros H. apply Wrapper_init_Some in H as (_ & _ & ->).
  now rewrite init_loop_attrs.
Qed.

Lemma Wrapper_init_own_cell (tool : Tool) (st : Interp) (self : Wrapper) (st' : Interp)
  (earlier : list ToolFunction) (final : ToolFunction) :
  Wrapper_init tool st = Some (self, st') ->
  tool_functions tool = earlier ++ [final] ->
  cells st' !! length (cells st) = Some (Some final).
Proof.
  intros H Hfs. apply Wrapper_init_Some in H as (_ & _ & ->).
  rewrite init_loop_cells, Hfs, last_snoc. cbn [cells].
  apply list_lookup_insert_eq. rewrite length_app. simpl. lia.
Qed.

Lemma Wrapper_init_other_cells (tool : Tool) (st : Interp) (self : Wrapper)
  (st' : Interp) (cell : nat) :
  Wrapper_init tool st = Some (self, st') ->
  cell < length (cells st) ->
  cells st' !! cell = cells st !! cell.
Proof.
  intros H Hlt. apply Wrapper_init_Some in H as (_ & _ & ->).
  rewrite init_loop_cells. cbn [cells].
  destruct (last (tool_functions tool)).
  - rewrite list_lookup_insert_ne by lia. now apply lookup_app_l.
  - now apply lookup_app_l.
Qed.

Lemma Wrapper_init_cells_length (tool : Tool) (st : Interp) (self : Wrapper)
  (st' : Interp) :
  Wrapper_init tool st = Some (self, st') ->
  length (cells st') = S (length (cells st)).
Proof.
  intros H. apply Wrapper_init_Some in H as (_ & _ & ->).
  rewrite init_loop_cells. cbn [cells].
  destruct (last (tool_functions tool));
    rewrite ?length_insert, length_app; simpl; lia.
Qed.

Section Http.

Variable post : string -> JSON -> Cli.Exception + JSON.
Variable repr_kwargs : list (string * JSON) -> string.
Variable markup_error : string -> option Cli.Exception.

Abbreviation execute_function :=
  (Rigging.execute_function post repr_kwargs markup_error).
Abbreviation call_method := (Rigging.call_method post repr_kwargs markup_error).

Lemma call_method_bound (st : Interp) (self : Wrapper) (method : string)
  (cell : nat) (function : ToolFunction) args kwargs :
  ordinary st = true ->
  method ∉ ["tool"; "name"; "description"] ->
  Wrapper_attrs st !! "_execute_function" = None ->
  Wrapper_attrs st !! method = Some cell ->
  cells st !! cell = Some (Some function) ->
  call_method st self method args kwargs
  = Some (execute_function self (fn_name function) args kwargs).
Proof.
  intros Hord Hname Hexec Hattr Hcell. unfold Rigging.call_method.
  rewrite Hord. cbn [negb].
  apply not_elem_of_cons in Hname as [H1 Hname].
  apply not_elem_of_cons in Hname as [H2 Hname].
  apply not_elem_of_cons in Hname as [H3 _].
  apply String.eqb_neq in H1, H2, H3. rewrite H1, H2, H3. cbn [orb].
  now rewrite Hattr, Hexec, Hcell.
Qed.



(** X17. [_execute_function] first hands its message to [rich.print]; when
    rich rejects it, nothing is posted and the error leaves the method.
    Otherwise it posts to the process endpoint a batch of exactly one call,
    of type "function", with the given name and the keyword arguments (the
    positional arguments are dropped), returns the content of the first
    result of the answer only, and raises on an empty answer. *)
Theorem execute_function_request_and_answer
  (self : Wrapper) (func_name : string) (args : list JSON)
  (kwargs : list (string * JSON)) :
  (exists entry,
      request_body func_name kwargs = JArray [entry] /\
      json_get ["type"] entry = Some (JString "function") /\
      json_get ["function"; "name"] entry = Some (JString func_name) /\
      json_get ["function"; "arguments"] entry = Some (JObject kwargs)) /\
  execute_function self func_name args kwargs
  = execute_function self func_name [] kwargs /\
  (forall e, markup_error (executing repr_kwargs self func_name kwargs) = Some e ->
             execute_function self func_name args kwargs = (inl e, [])) /\
  (markup_error (executing repr_kwargs self func_name kwargs) = None ->
   snd (execute_function self func_name args kwargs)
   = [RqPrint (executing repr_kwargs self func_name kwargs);
      RqPost process_url (request_body func_name kwargs)] /\
   (forall members others c,
       post process_url (request_body func_name kwargs)
       = inr (JArray (JObject members :: others)) ->
       member "content" members = Some c ->
       fst (execute_function self func_name args kwargs) = inr c) /\
   (post process_url (request_body func_name kwargs) = inr (JArray []) ->
    fst (execute_function self func_name args kwargs)
    = inl "list index out of range")).
Proof.
  split; [eexists; repeat split |].
  split; [reflexivity |].
  unfold Rigging.execute_function. split.
  - intros e ->. reflexivity.
  - intros ->. split; [reflexivity |]. split.
    + intros members others c -> Hc. cbn [fst subscript_0 subscript_content].
      now rewrite Hc.
    + intros ->. reflexivity.
Qed.

End Http.


Ltac not_in_list :=
  repeat (apply not_elem_of_cons; split; [discriminate |]); apply not_elem_of_nil.



Lemma execute_function_request_and_answer_witness :
  Rigging.execute_function MoreExamples.server MoreExamples.show_kwargs
    Doubles.closing_x_error
    (mkWrapper MoreExamples.nmap_tool "nmap" "Port scanner.")
    "full_scan" [JString "positional"] [("target", JString "[/x]")]
  = (inl "closing tag '[/x]' at position 36 doesn't match any open tag", []).
Proof.
  exact (proj1 (proj2 (proj2 (execute_function_request_and_answer
           MoreExamples.server MoreExamples.show_kwargs Doubles.closing_x_error
           (mkWrapper MoreExamples.nmap_tool "nmap" "Port scanner.")
           "full_scan" [JString "positional"] [("target", JString "[/x]")])))
           "closing tag '[/x]' at position 36 doesn't match any open tag" eq_refl).
Defined.

End RiggingFacts.
(** ** Facts about [install], [create] and [view] *)
Module ShellFacts.

Import Core Shell.

Ltac in_effects H :=
  repeat (apply elem_of_cons in H as [H | H]; [try discriminate |]);
  try (apply elem_of_nil in H; contradiction).

Section Install.

Variable file_exists : string -> bool.
Variable http_get : string -> Cli.Exception + string.
Variable extractall : Archive -> Cli.Path -> Cli.Exception + unit.
Variable markup_error : string -> option Cli.Exception.

Abbreviation install_body :=
  (Shell.install_body file_exists http_get extractall markup_error).
Abbreviation install := (Shell.install file_exists http_get extractall markup_error).

Ltac run_install_step :=
  match goal with
  | |- context [markup_error ?t] => destruct (markup_error t) eqn:?
  | |- context [extractall ?a ?p] => destruct (extractall a p) as [? | []] eqn:?
  | |- context [http_get ?u] => destruct (http_get u) as [? | ?] eqn:?
  end; cbn.

Ltac run_install :=
  unfold Shell.install, try_except, Shell.install_body, mbind, Out_bind, perform,
    rich_print, print; cbn;
  do 6 try run_install_step.

(** X1. [install] extracts an archive only into the destination it was
    given, and only when that destination did not exist; the archive is the
    local file [repo], when its name contains ".zip" and it exists, and
    otherwise what was downloaded from the archive URL of [repo]. *)
Theorem install_extracts_only_into_fresh_destination
  (repo : string) (path : Cli.Path) (archive : Archive) (destination : Cli.Path) :
  FxExtract archive destination ∈ snd (install repo path) ->
  file_exists path = false /\
  destination = path /\
  ((archive = LocalArchive repo /\ contains ".zip" repo = true
    /\ file_exists repo = true)
   \/ (exists body, archive = Downloaded (archive_url repo) body
                    /\ http_get (archive_url repo) = inr body)).
Proof.
  destruct (file_exists path) eqn:Hpath;
    [run_install; rewrite Hpath; run_install; cbn; intros H; in_effects H |].
  destruct (contains ".zip" repo) eqn:Hzip;
    [destruct (file_exists repo) eqn:Hrepo |];
    unfold Shell.install, Shell.install_body; rewrite Hpath, Hzip, ?Hrepo;
    cbn [andb]; run_install; cbn; intros H; in_effects H;
    inversion H; subst; eauto 8.
Qed.



End Install.

Section Create.

Variable file_exists : string -> bool.
Variable path_name : Cli.Path -> string.
Variable Prompt_ask : string -> list string -> string -> Cli.Exception + string.
Variable create_example_in_path : Cli.Path -> Cli.Exception + unit.

Abbreviation overwrite_prompt := (Shell.overwrite_prompt path_name).
Abbreviation create :=
  (Shell.create file_exists path_name Prompt_ask create_example_in_path).


End Create.

Section View.

Variable to_string : Function -> string -> string.

Abbreviation add_function_rows := (Shell.add_function_rows to_string).
Abbreviation add_page_rows := (Shell.add_page_rows to_string).

Lemma add_function_rows_later (page : Robopage) (items : list (string * Function))
  (table : list Row) :
  add_function_rows page items false table
  = (false,
     table ++ map (fun nf : string * Function =>
                     ("", to_string (snd nf) (fst nf), description (snd nf)))
                  items).
Proof.
  revert table; induction items as [|[n f] items IH]; intros table; cbn.
  - now rewrite app_nil_r.
  - rewrite IH, <- app_assoc. reflexivity.
Qed.

Lemma add_function_rows_first (page : Robopage) (items : list (string * Function))
  (table : list Row) :
  snd (add_function_rows page items true table)
  = table ++ match items with
             | [] => []
             | nf :: rest =>
                 (page_label page, to_string (snd nf) (fst nf), description (snd nf))
                 :: map (fun nf : string * Function =>
                           ("", to_string (snd nf) (fst nf), description (snd nf)))
                        rest
             end.
Proof.
  destruct items as [|[n f] items]; cbn.
  - now rewrite app_nil_r.
  - rewrite add_function_rows_later, <- app_assoc. reflexivity.
Qed.

Lemma add_page_rows_app (pages : list (string * Robopage)) (table : list Row) :
  add_page_rows pages table = table ++ add_page_rows pages [].
Proof.
  revert table; induction pages as [|[key page] pages IH]; intros table; cbn.
  - now rewrite app_nil_r.
  - rewrite IH, (IH (snd (add_function_rows page (functions page) true []))).
    rewrite !add_function_rows_first, app_nil_l, app_assoc. reflexivity.
Qed.

(** X5. The table of [view] has one row per function, page after page and
    function after function in the order of the Book; the page column holds
    the label of the page on the first row of each page and is empty on its
    other rows, and a page without functions gives no row. *)
Theorem view_rows_follow_the_book (pages : list (string * Robopage)) :
  map (fun row : Row => (snd (fst row), snd row)) (add_page_rows pages [])
  = map (fun nf : string * Function =>
           (to_string (snd nf) (fst nf), description (snd nf)))
        (flat_map (fun kp : string * Robopage => functions (snd kp)) pages)
  /\ map (fun row : Row => fst (fst row)) (add_page_rows pages [])
     = flat_map (fun kp : string * Robopage =>
                   match functions (snd kp) with
                   | [] => []
                   | _ :: rest => page_label (snd kp) :: map (fun _ => "") rest
                   end)
                pages.
Proof.
  induction pages as [|[key page] pages [IH1 IH2]]; [split; reflexivity |].
  cbn [Shell.add_page_rows flat_map snd].
  rewrite add_page_rows_app, add_function_rows_first, app_nil_l, !map_app.
  rewrite IH1, IH2. split; f_equal.
  - destruct (functions page) as [|[n f] rest]; [reflexivity |].
    cbn. f_equal. rewrite map_map. reflexivity.
  - destruct (functions page) as [|[n f] rest]; [reflexivity |].
    cbn. f_equal. rewrite map_map. reflexivity.
Qed.

End View.

Lemma install_extracts_only_into_fresh_destination_witness :
  MoreExamples.on_disk "/tmp/pages" = false /\ "/tmp/pages" = "/tmp/pages".
Proof.
  pose proof (install_extracts_only_into_fresh_destination
                MoreExamples.on_disk MoreExamples.reachable MoreExamples.unzip
                Doubles.no_markup_error
                "pages.zip" "/tmp/pages" (LocalArchive "pages.zip") "/tmp/pages"
                (list_elem_of_further _ _ _ (list_elem_of_here _ _))) as H.
  exact (conj (proj1 H) (proj1 (proj2 H))).
Defined.




End ShellFacts.

(** ** More facts about [to_json], [serve] and [run] *)
Module CliMoreFacts.

Import Cli Trace.

(** *** Prompts and lines of input *)

Section Prompts.

Variable markup_error : string -> option Exception.
Variable strip : string -> string.

Abbreviation ask_value := (Cli.ask_value markup_error strip).
Abbreviation ask_values := (Cli.ask_values markup_error strip).

Lemma ask_value_consumes n p args lines events r rest events' :
  ask_value n p args lines events = (r, rest, events') ->
  exists consumed k,
    events' = events ++ replicate k (EvPrompt (prompt_text n)) /\
    lines = consumed ++ rest /\
    match r with
    | inr _ => k = length consumed
    | inl e =>
        (e = EOFError /\ rest = [] /\ k = S (length consumed))
        \/ (k = length consumed /\ markup_error (prompt_text n) = Some e)
    end.
Proof.
  revert events; induction lines as [|line lines IH]; intros events H;
    rewrite CliFacts.ask_value_unfold in H;
    destruct (markup_error (prompt_text n)) eqn:Hm;
    try (inversion H; subst; exists [], 0; rewrite app_nil_r;
         repeat split; auto; fail).
  - inversion H; subst. exists [], 1. repeat split; auto.
  - destruct (truthy (strip line));
      [inversion H; subst; exists [line], 1; repeat split; reflexivity |].
    destruct (negb (required p));
      [inversion H; subst; exists [line], 1; repeat split; reflexivity |].
    apply IH in H as (consumed & k & -> & -> & Hr).
    exists (line :: consumed), (S k). rewrite <- app_assoc.
    repeat split; try reflexivity.
    destruct r as [e | a]; cbn [length]; [| now f_equal].
    destruct Hr as [(-> & Hrest & ->) | (-> & He)]; [left | right]; auto.
Qed.

Lemma ask_values_consume params args lines events r rest events' :
  ask_values params args lines events = (r, rest, events') ->
  exists consumed prompts,
    events' = events ++ map EvPrompt prompts /\
    lines = consumed ++ rest /\
    match r with
    | inr _ => length prompts = length consumed
    | inl e =>
        (e = EOFError /\ rest = [] /\ length prompts = S (length consumed))
        \/ (length prompts = length consumed
            /\ exists n p, (n, p) ∈ params /\ markup_error (prompt_text n) = Some e)
    end.
Proof.
  revert args lines events; induction params as [|[n p] params IH];
    intros args lines events H; cbn [Cli.ask_values] in H.
  - inversion H; subst. exists [], []. rewrite app_nil_r. repeat split; reflexivity.
  - destruct (ask_value n p args lines events) as [[[e | a] r1] ev1] eqn:Hv;
      apply ask_value_consumes in Hv as (c1 & k & -> & -> & Hk).
    + inversion H; subst.
      exists c1, (replicate k (prompt_text n)).
      rewrite CliFacts.map_replicate, length_replicate. repeat split; try reflexivity.
      destruct Hk as [(-> & -> & ->) | (-> & He)]; [left; auto | right].
      split; [reflexivity |]. exists n, p. split; [left | exact He].
    + subst k. apply IH in H as (c2 & prompts & -> & -> & Hr).
      exists (c1 ++ c2), (replicate (length c1) (prompt_text n) ++ prompts).
      rewrite map_app, CliFacts.map_replicate, !app_assoc, !length_app, length_replicate.
      repeat split; try reflexivity.
      destruct r as [e | a']; [| lia].
      destruct Hr as [(-> & Hrest & Hlen) | (Hlen & n' & p' & Hin & He)].
      * left. repeat split; auto. lia.
      * right. split; [lia |]. exists n', p'. split; [now right | exact He].
Qed.


(** X12. When the argument collection succeeds, the prompts follow the order
    of the function's parameters: each parameter is asked at least once, an
    optional one exactly once, and all the prompts for one parameter come
    before the first prompt for the next. *)
Theorem prompts_follow_parameter_order
  (params : list (string * Param)) (args args' : gmap string string)
  (lines rest : list string) (events events' : list Event) :
  ask_values params args lines events = (inr args', rest, events') ->
  exists counts : list nat,
    Forall2 (fun (np : string * Param) (k : nat) =>
               1 <= k /\ (required (snd np) = false -> k = 1))
            params counts /\
    events' = events
                ++ concat (zip_with (fun (np : string * Param) (k : nat) =>
                                       replicate k (EvPrompt (prompt_text (fst np))))
                                    params counts).
Proof.
  revert args lines events; induction params as [|[n p] params IH];
    intros args lines events H; cbn [Cli.ask_values] in H.
  - inversion H; subst. exists []. split; [constructor | now rewrite app_nil_r].
  - destruct (ask_value n p args lines events) as [[[e | a] r1] ev1] eqn:Hv;
      [discriminate |].
    apply CliFacts.ask_value_inr in Hv as (_ & blanks & line & _ & _ & -> & Hcases).
    apply IH in H as (counts & Hall & ->).
    exists (S (length blanks) :: counts). split.
    + constructor; [| exact Hall]. cbn [snd]. split; [lia |].
      intros Hopt.
      destruct Hcases as [(_ & _ & [-> | Hreq]) | (_ & -> & _)];
        [reflexivity | congruence | reflexivity].
    + cbn [zip_with concat fst]. now rewrite <- app_assoc.
Qed.

(** X10. The collected mapping holds declared parameters only: every key of
    the arguments is the name of a parameter of the function. *)
Theorem collected_arguments_are_declared
  (params : list (string * Param)) (args : gmap string string)
  (lines rest : list string) (events events' : list Event) (key value : string) :
  ask_values params ∅ lines events = (inr args, rest, events') ->
  args !! key = Some value ->
  exists p, (key, p) ∈ params.
Proof.
  intros Hrun Hkey.
  apply CliFacts.ask_values_inr in Hrun as (_ & Hkeep & _ & _).
  destruct (decide (key ∈ params.*1)) as [Hin | Hout].
  - apply list_elem_of_fmap in Hin as ([k p] & -> & Hin). now exists p.
  - rewrite (Hkeep key Hout), lookup_empty in Hkey. discriminate.
Qed.

End Prompts.

Lemma prompts_of_app (events events' : list Event) :
  prompts_of (events ++ events') = prompts_of events ++ prompts_of events'.
Proof. apply flat_map_app. Qed.

Lemma batches_of_app (events events' : list Event) :
  batches_of (events ++ events') = batches_of events ++ batches_of events'.
Proof. apply flat_map_app. Qed.

Section Commands.

Variable from_path : Path -> option string -> Exception + Robook.
Variable find_function : Robook -> string -> Exception + option Function.
Variable process :
  Robook -> list Robocall -> bool -> list string ->
  (Exception + list Result) * list string.
Variable JSON : Type.
Variable to_openai : Robook -> Exception + JSON.
Variable json_dumps : JSON -> nat -> string.
Variable repr : list Result -> string.
Variable markup_error : string -> option Exception.
Variable strip : string -> string.
Variable write_text : Path -> string -> option Exception.

Abbreviation to_json :=
  (Cli.to_json from_path JSON to_openai json_dumps markup_error write_text).
Abbreviation serve := (Cli.serve from_path).
Abbreviation run_body :=
  (Cli.run_body from_path find_function process repr markup_error strip).
Abbreviation run := (Cli.run from_path find_function process repr markup_error strip).
Abbreviation ask_values := (Cli.ask_values markup_error strip).

(** X6. [to_json] has no handler: when the Book cannot be loaded or cannot
    be translated, the exception reaches the caller, no file is written and
    nothing is printed. *)
Theorem to_json_propagates_failure
  (path : Path) (output : option Path) (filter : option string) (w : World)
  (e : Exception) :
  from_path path filter = inl e
  \/ (exists book, from_path path filter = inr book /\ to_openai book = inl e) ->
  to_json path output filter w = (inl e, emit (EvFromPath path filter) w).
Proof.
  unfold Cli.to_json, Robook_from_path, mbind, M_bind, tell, lift.
  intros [H | (book & H & Hschema)]; rewrite H; [reflexivity |].
  now rewrite Hschema.
Qed.

(** X7. When the Book cannot be loaded, [serve] raises to its caller without
    touching [robopages.api.book], without the warning and without starting
    the server. *)
Theorem serve_does_not_start_without_book
  (path : Path) (filter : option string) (address : string) (port : Z)
  (w : World) (e : Exception) :
  from_path path filter = inl e ->
  serve path filter address port w = (inl e, emit (EvFromPath path filter) w)
  /\ api_book (snd (serve path filter address port w)) = api_book w.
Proof.
  intros H. unfold Cli.serve, Robook_from_path, mbind, M_bind, tell, lift.
  rewrite H. split; reflexivity.
Qed.

(** X8. When the Book cannot be loaded, or the lookup itself raises, [run]
    hands the error to [rich.print] and returns normally unless rich rejects
    its text; either way no prompt is shown, no line of input is read and
    [process] is not called. *)
Theorem run_reports_load_failure
  (path : Path) (auto : bool) (function_name : string) (w : World) (e : Exception) :
  let world := fun events =>
    {| stdin := stdin w; api_book := api_book w; log := log w ++ events |} in
  (from_path path None = inl e ->
   run path auto function_name w
   = match markup_error (":cross_mark: " +:+ e) with
     | None => (inr tt, world [EvFromPath path None; EvPrint (":cross_mark: " +:+ e)])
     | Some m => (inl m, world [EvFromPath path None])
     end)
  /\ (forall book,
         from_path path None = inr book ->
         find_function book function_name = inl e ->
         run path auto function_name w
         = match markup_error (":cross_mark: " +:+ e) with
           | None =>
               (inr tt, world [EvFromPath path None; EvFindFunction function_name;
                               EvPrint (":cross_mark: " +:+ e)])
           | Some m =>
               (inl m, world [EvFromPath path None; EvFindFunction function_name])
           end).
Proof.
  cbv zeta. split.
  - intros H. rewrite CliFacts.run_handles.
    unfold Cli.run_body, Robook_from_path, mbind, M_bind, tell, lift. rewrite H.
    destruct (markup_error (":cross_mark: " +:+ e)); unfold emit;
      cbn [stdin api_book log]; rewrite <- ?app_assoc; reflexivity.
  - intros book H Hfind. rewrite CliFacts.run_handles.
    unfold Cli.run_body, Robook_from_path, book_find_function, mbind, M_bind, tell, lift.
    rewrite H. cbn [emit stdin api_book log]. rewrite Hfind.
    destruct (markup_error (":cross_mark: " +:+ e)); unfold emit;
      cbn [stdin api_book log]; rewrite <- ?app_assoc; reflexivity.
Qed.

(** X9. When the argument collection fails (the input ends before every
    parameter has its answer, or rich rejects a prompt), [run] does not call
    [process]: it hands the error to [rich.print] after the last prompt. *)
Theorem run_end_of_input_skips_process
  (path : Path) (auto : bool) (function_name : string) (w : World)
  (book : Robook) (f : Function) (e : Exception)
  (rest : list string) (events : list Event) :
  from_path path None = inr book ->
  find_function book function_name = inr (Some f) ->
  ask_values (parameters f) ∅ (stdin w)
             (log w ++ [EvFromPath path None; EvFindFunction function_name]
                ++ match parameters f with
                   | [] => []
                   | _ :: _ => [EvPrint ""]
                   end)
  = (inl e, rest, events) ->
  run path auto function_name w
  = match markup_error (":cross_mark: " +:+ e) with
    | None =>
        (inr tt,
         {| stdin := rest; api_book := api_book w;
            log := events ++ [EvPrint (":cross_mark: " +:+ e)] |})
    | Some m => (inl m, {| stdin := rest; api_book := api_book w; log := events |})
    end
  /\ batches_of (log (snd (run path auto function_name w))) = batches_of (log w).
Proof.
  intros Hbook Hfind Hask.
  pose proof (CliFacts.ask_values_events _ _ _ _ _ _ _ _ _ Hask) as [prompts Hev].
  assert (Hbody : run_body path auto function_name w
                  = (inl e, {| stdin := rest; api_book := api_book w; log := events |})).
  { unfold Cli.run_body, Robook_from_path, book_find_function, mbind, M_bind, tell, lift.
    rewrite Hbook. cbn [emit stdin api_book log]. rewrite Hfind.
    unfold collect_arguments.
    destruct (parameters f) as [|np params] eqn:Hparams; cbn [app] in Hask.
    - unfold mret, M_ret. cbn [emit stdin api_book log].
      rewrite <- !app_assoc. cbn [app]. rewrite Hask. reflexivity.
    - unfold print, tell. cbn [emit stdin api_book log].
      rewrite <- !app_assoc. cbn [app]. rewrite Hask. reflexivity. }
  assert (Hprompts : batches_of (map EvPrompt prompts) = []).
  { clear. induction prompts as [|q prompts IH]; [reflexivity | exact IH]. }
  assert (Hevents : batches_of events = batches_of (log w)).
  { rewrite Hev, !batches_of_app, Hprompts.
    destruct (parameters f); cbn; now rewrite !app_nil_r. }
  rewrite CliFacts.run_handles, Hbody.
  destruct (markup_error (":cross_mark: " +:+ e)); unfold emit;
    cbn [snd stdin api_book log]; (split; [reflexivity |]);
    rewrite ?batches_of_app, Hevents; cbn; now rewrite ?app_nil_r.
Qed.

(** X13. The flag [auto] changes nothing before [process] is called: with or
    without it, [run] shows the same prompts and hands the same batch to
    [process]. *)
Theorem auto_does_not_change_prompts
  (path : Path) (function_name : string) (w : World) :
  prompts_of (log (snd (run path true function_name w)))
  = prompts_of (log (snd (run path false function_name w)))
  /\ batches_of (log (snd (run path true function_name w)))
     = batches_of (log (snd (run path false function_name w))).
Proof.
  rewrite !CliFacts.run_handles.
  unfold Cli.run_body, Robook_from_path, book_find_function,
    mbind, M_bind, tell, lift, raise.
  destruct (from_path path None) as [e | book];
    [destruct (markup_error (":cross_mark: " +:+ e)); split; reflexivity |].
  cbn [emit stdin api_book log].
  destruct (find_function book function_name) as [e | [f |]];
    [destruct (markup_error (":cross_mark: " +:+ e)); split; reflexivity
    | | match goal with
        | |- context [markup_error ?x] => destruct (markup_error x)
        end; split; reflexivity].
  unfold collect_arguments, book_process.
  destruct (parameters f) as [|np params];
    unfold mret, M_ret, print, tell, emit, set_stdin;
    cbn [stdin api_book log negb];
    do 6 try match goal with
      | |- context [Cli.ask_values ?m ?s ?a ?b ?c ?d] =>
          destruct (Cli.ask_values m s a b c d) as [[[?|?] ?] ?]
      | |- context [process ?b ?c ?i ?r] =>
          destruct (process b c i r) as [[?|?] ?]
      | |- context [markup_error ?x] => destruct (markup_error x)
      end;
    cbn [snd stdin api_book log];
    unfold prompts_of, batches_of; rewrite ?flat_map_app; cbn [flat_map app];
    rewrite ?app_nil_r; split; reflexivity.
Qed.


(** X19. When the Book loads and translates, the text that [to_json] hands to
    [write_text], or to [rich.print] when there is no output file, is
    [json.dumps(schema, indent=2)] of the OpenAI translation; an error of
    [write_text] or a text that rich rejects leaves the command as an
    exception, and the note that the file was saved comes after the write. *)
Theorem to_json_hands_over_serialized_schema
  (path : Path) (output : option Path) (filter : option string)
  (w : World) (book : Robook) (schema : JSON) :
  from_path path filter = inr book ->
  to_openai book = inr schema ->
  let data := json_dumps schema 2 in
  let loaded := emit (EvFromPath path filter) w in
  to_json path output filter w =
  match output with
  | Some file =>
      let written := emit (EvWriteText file data) loaded in
      match write_text file data with
      | Some e => (inl e, written)
      | None =>
          match markup_error (":file_folder: saved to " +:+ file) with
          | Some m => (inl m, written)
          | None => (inr tt, emit (EvPrint (":file_folder: saved to " +:+ file)) written)
          end
      end
  | None =>
      match markup_error data with
      | Some m => (inl m, loaded)
      | None => (inr tt, emit (EvPrint data) loaded)
      end
  end.
Proof.
  intros Hbook Hschema. cbv zeta.
  unfold Cli.to_json, Robook_from_path, mbind, M_bind, tell, lift, rich_print, raise,
    print, tell.
  rewrite Hbook, Hschema. destruct output as [file |].
  - destruct (write_text file (json_dumps schema 2)); [reflexivity |].
    unfold mret, M_ret.
    destruct (markup_error (":file_folder: saved to " +:+ file)); reflexivity.
  - destruct (markup_error (json_dumps schema 2)); reflexivity.
Qed.

End Commands.


Lemma prompts_follow_parameter_order_witness :
  exists counts : list nat,
    Forall2 (fun (np : string * Param) (k : nat) =>
               1 <= k /\ (required (snd np) = false -> k = 1))
            (parameters Examples.scan) counts /\
    [EvPrompt (prompt_text "target"); EvPrompt (prompt_text "target");
     EvPrompt (prompt_text "ports")]
    = [] ++ concat (zip_with (fun (np : string * Param) (k : nat) =>
                                replicate k (EvPrompt (prompt_text (fst np))))
                             (parameters Examples.scan) counts).
Proof.
  exact (prompts_follow_parameter_order
           Doubles.closing_x_error Doubles.strip
           (parameters Examples.scan) ∅ {[ "target" := "10.0.0.1" ]}
           [" "; " 10.0.0.1"; ""; "y"] ["y"] []
           [EvPrompt (prompt_text "target"); EvPrompt (prompt_text "target");
            EvPrompt (prompt_text "ports")]
           eq_refl).
Defined.

Lemma collected_arguments_are_declared_witness :
  exists p, ("target", p) ∈ parameters Examples.scan.
Proof.
  exact (collected_arguments_are_declared
           Doubles.closing_x_error Doubles.strip
           (parameters Examples.scan) {[ "target" := "10.0.0.1" ]}
           [" "; " 10.0.0.1"; ""; "y"] ["y"] []
           [EvPrompt (prompt_text "target"); EvPrompt (prompt_text "target");
            EvPrompt (prompt_text "ports")]
           "target" "10.0.0.1" eq_refl eq_refl).
Defined.

Lemma to_json_propagates_failure_witness :
  Cli.to_json MoreExamples.unreadable (list Core.JSON) Examples.to_openai Examples.dumps
              Doubles.closing_x_error Doubles.writable
              "pages" (Some "tools.json") None (Examples.console [])
  = (inl "[Errno 13] Permission denied",
     {| stdin := []; api_book := None; log := [EvFromPath "pages" None] |}).
Proof.
  exact (to_json_propagates_failure
           MoreExamples.unreadable (list Core.JSON) Examples.to_openai Examples.dumps
           Doubles.closing_x_error Doubles.writable
           "pages" (Some "tools.json") None (Examples.console [])
           "[Errno 13] Permission denied" (or_introl eq_refl)).
Defined.

Lemma serve_does_not_start_without_book_witness :
  Cli.serve MoreExamples.unreadable "pages" None "0.0.0.0" 8000 (Examples.console [])
  = (inl "[Errno 13] Permission denied",
     {| stdin := []; api_book := None; log := [EvFromPath "pages" None] |}).
Proof.
  exact (proj1 (serve_does_not_start_without_book
                  MoreExamples.unreadable "pages" None "0.0.0.0" 8000
                  (Examples.console []) "[Errno 13] Permission denied" eq_refl)).
Defined.

Lemma run_reports_load_failure_witness :
  Cli.run MoreExamples.unreadable Examples.find_function Examples.process_impl
          Examples.repr Doubles.closing_x_error Doubles.strip
          "pages" true "ping" (Examples.console ["127.0.0.1"])
  = (inr tt,
     {| stdin := ["127.0.0.1"];
        api_book := None;
        log := [EvFromPath "pages" None;
                EvPrint ":cross_mark: [Errno 13] Permission denied"] |}).
Proof.
  exact (proj1 (run_reports_load_failure
                  MoreExamples.unreadable Examples.find_function Examples.process_impl
                  Examples.repr Doubles.closing_x_error Doubles.strip
                  "pages" true "ping" (Examples.console ["127.0.0.1"])
                  "[Errno 13] Permission denied")
               eq_refl).
Defined.

Lemma run_end_of_input_skips_process_witness :
  Cli.run Examples.from_path Examples.find_function Examples.process_impl
          Examples.repr Doubles.closing_x_error Doubles.strip
          "pages" true "ping" (Examples.console [" "])
  = (inr tt,
     {| stdin := [];
        api_book := None;
        log := [EvFromPath "pages" None; EvFindFunction "ping"; EvPrint "";
                EvPrompt (prompt_text "target"); EvPrompt (prompt_text "target");
                EvPrint ":cross_mark: EOF when reading a line"] |}).
Proof.
  exact (proj1 (run_end_of_input_skips_process
                  Examples.from_path Examples.find_function Examples.process_impl
                  Examples.repr Doubles.closing_x_error Doubles.strip
                  "pages" true "ping" (Examples.console [" "])
                  Examples.book Examples.ping EOFError []
                  [EvFromPath "pages" None; EvFindFunction "ping"; EvPrint "";
                   EvPrompt (prompt_text "target"); EvPrompt (prompt_text "target")]
                  eq_refl eq_refl eq_refl)).
Defined.


Lemma to_json_hands_over_serialized_schema_witness :
  Cli.to_json Doubles.from_path_tagged (list Core.JSON) Examples.to_openai Doubles.dumps
              Doubles.closing_x_error Doubles.writable
              "pages" (Some "tools.json") None (Examples.console [])
  = (inr tt,
     {| stdin := [];
        api_book := None;
        log := [EvFromPath "pages" None;
                EvWriteText "tools.json"
                  (Doubles.dumps (Core.toSchema Core.OpenAI Doubles.tagged_book) 2);
                EvPrint ":file_folder: saved to tools.json"] |}).
Proof.
  exact (to_json_hands_over_serialized_schema
           Doubles.from_path_tagged (list Core.JSON) Examples.to_openai Doubles.dumps
           Doubles.closing_x_error Doubles.writable
           "pages" (Some "tools.json") None (Examples.console [])
           Doubles.tagged_book (Core.toSchema Core.OpenAI Doubles.tagged_book)
           eq_refl eq_refl).
Defined.

End CliMoreFacts.
